(** * Kudo bookmark service: Record Store, Bookmark Service, Authentication
      Gate and HTTP Surface

    A shallow embedding of the Go backend of the tutorial repository
    (packages [core], [storage], [kudo] and [http]) together with the parts
    of the Go standard library ([strconv], [strings], [net/http]) and of the
    MongoDB driver ([mgo]) whose results the backend depends on.

    The definitions come first, package by package, then the vocabulary
    of the statements and the concrete scenarios, then the proofs:
    integer conversions, collection operations, repository, service and
    HTTP surface. *)

From Stdlib Require Import ZArith Lia List Bool Ascii.
From stdpp Require Import base option list gmap strings.
Import ListNotations.

(* ===================================================================== *)
(** * Go runtime values shared by all packages *)
(* ===================================================================== *)

(** Result of running Go code that may panic. *)
Inductive outcome (A : Type) : Type :=
| Returned (a : A)
| Panicked (msg : string).
Arguments Returned {A} a.
Arguments Panicked {A} msg.

(** A Go [interface{}] value, as far as the backend inspects it: the only
    dynamic type it ever asserts is [string]. *)
Inductive iface : Type :=
| IString (s : string)
| IOther.

(* ===================================================================== *)
(** * Package strconv and strings (Go standard library) *)
(* ===================================================================== *)

Module strconv.
Local Open Scope Z_scope.

Inductive NumError : Type := ErrSyntax | ErrRange.

(** The width of Go's [int] and [uint], which the build target fixes:
    32 bits on 386 and arm, 64 bits on amd64 and arm64. *)
Inductive IntWidth : Type := Int32 | Int64.

(** The build target, as far as the code depends on it. *)
Class Target : Type := { int_width : IntWidth }.

Definition GOARCH_386 : Target := {| int_width := Int32 |}.
Definition GOARCH_amd64 : Target := {| int_width := Int64 |}.

Section target.
Context {T : Target}.

(** [strconv.IntSize] *)
Definition intSize : Z :=
  match int_width with
  | Int32 => 32
  | Int64 => 64
  end.

(** Two's complement conversion to a signed integer of [bits] bits. *)
Definition wrap_signed (bits x : Z) : Z :=
  (x + 2 ^ (bits - 1)) mod 2 ^ bits - 2 ^ (bits - 1).

Definition to_int64 (x : Z) : Z := wrap_signed 64 x.
Definition to_int (x : Z) : Z := wrap_signed intSize x.
Definition to_uint64 (x : Z) : Z := x mod 2 ^ 64.

Definition minInt64 : Z := - 2 ^ 63.
Definition maxInt64 : Z := 2 ^ 63 - 1.
Definition is_int64 (x : Z) : Prop := minInt64 <= x <= maxInt64.

(** The values of [int] on the target. *)
Definition is_int (x : Z) : Prop := - 2 ^ (intSize - 1) <= x <= 2 ^ (intSize - 1) - 1.

Definition byte_of (c : ascii) : Z := Z.of_N (N_of_ascii c).
Definition digit (d : Z) : ascii := ascii_of_N (Z.to_N (48 + d)).

(** [small]: the two-character table look-up of itoa.go for 0 <= i < 100. *)
Definition small (i : Z) : string :=
  if i <? 10 then String (digit i) EmptyString
  else String (digit (i / 10)) (String (digit (i mod 10)) EmptyString).

(** The base-10 loop of [formatBits]: digits are written from the right
    end of a 65 byte buffer, so at most 20 iterations occur for a uint64. *)
Fixpoint formatBits (fuel : nat) (u : Z) (a : string) : string :=
  match fuel with
  | O => a
  | S fuel' =>
      if u <? 10 then String (digit u) a
      else formatBits fuel' (u / 10) (String (digit (u mod 10)) a)
  end.

Definition FormatInt (i : Z) : string :=
  if (0 <=? i) && (i <? 100) then small i
  else
    let u := to_uint64 i in
    let u := if i <? 0 then to_uint64 (- u) else u in
    let s := formatBits 20 u EmptyString in
    if i <? 0 then String "-" s else s.

(** [func Itoa(i int) string { return FormatInt(int64(i), 10) }] *)
Definition Itoa (i : Z) : string := FormatInt (to_int64 i).

(** Fast path of [Atoi]: plain accumulation in [int] arithmetic. *)
Fixpoint atoi_loop (s : string) (n : Z) : Z * option NumError :=
  match s with
  | EmptyString => (n, None)
  | String ch r =>
      let d := (byte_of ch - 48) mod 256 in
      if 9 <? d then (0, Some ErrSyntax)
      else atoi_loop r (to_int (n * 10 + d))
  end.

(** [cutoff] of [ParseUint] for base 10: the least n with n*10 > maxUint64. *)
Definition cutoff10 : Z := (2 ^ 64 - 1) / 10 + 1.

(** The digit loop of [ParseUint] for base 10.  A letter yields a digit
    value of at least 10 = base and any other byte hits the default case:
    both return the syntax error.  The range checks come before the next
    byte is looked at. *)
Fixpoint parseUint_loop (maxVal : Z) (s : string) (n : Z)
  : Z * option NumError :=
  match s with
  | EmptyString => (n, None)
  | String c r =>
      if (48 <=? byte_of c) && (byte_of c <=? 57) then
        let d := byte_of c - 48 in
        if cutoff10 <=? n then (maxVal, Some ErrRange)
        else
          let n10 := to_uint64 (n * 10) in
          let n1 := to_uint64 (n10 + d) in
          if (n1 <? n10) || (maxVal <? n1) then (maxVal, Some ErrRange)
          else parseUint_loop maxVal r n1
      else (0, Some ErrSyntax)
  end.

Definition ParseUint (s : string) (bitSize : Z) : Z * option NumError :=
  match s with
  | EmptyString => (0, Some ErrSyntax)
  | _ =>
      let bitSize := if bitSize =? 0 then intSize else bitSize in
      parseUint_loop (2 ^ bitSize - 1) s 0
  end.

Definition ParseInt (s : string) (bitSize : Z) : Z * option NumError :=
  match s with
  | EmptyString => (0, Some ErrSyntax)
  | String c0 rest =>
      let neg := Ascii.eqb c0 "-" in
      let s' := if Ascii.eqb c0 "+" || neg then rest else s in
      match ParseUint s' bitSize with
      | (_, Some ErrSyntax) => (0, Some ErrSyntax)
      | (un, _) =>
          let bitSize := if bitSize =? 0 then intSize else bitSize in
          let cutoff := 2 ^ (bitSize - 1) in
          if negb neg && (cutoff <=? un) then (cutoff - 1, Some ErrRange)
          else if neg && (cutoff <? un) then (- cutoff, Some ErrRange)
          else
            let n := to_int64 un in
            (if neg then to_int64 (- n) else n, None)
      end
  end.

Definition Atoi (s : string) : Z * option NumError :=
  let sLen := Z.of_nat (String.length s) in
  if ((intSize =? 32) && (0 <? sLen) && (sLen <? 10))
     || ((intSize =? 64) && (0 <? sLen) && (sLen <? 19)) then
    match s with
    | EmptyString => (0, Some ErrSyntax)
    | String c0 rest =>
        let signed := Ascii.eqb c0 "-" || Ascii.eqb c0 "+" in
        let s' := if signed then rest else s in
        if signed && (String.length s' =? 0)%nat then (0, Some ErrSyntax)
        else
          match atoi_loop s' 0 with
          | (n, None) => (if Ascii.eqb c0 "-" then to_int (- n) else n, None)
          | (_, Some e) => (0, Some e)
          end
    end
  else
    let '(i64, err) := ParseInt s 0 in (to_int i64, err).

End target.

End strconv.

Module strings.

(** [strings.Split(s, sep)] for a one-byte separator: the substrings
    between the occurrences of [sep]; always at least one element. *)
Fixpoint Split (s : string) (sep : ascii) : list string :=
  match s with
  | EmptyString => [EmptyString]
  | String c r =>
      if Ascii.eqb c sep then EmptyString :: Split r sep
      else match Split r sep with
           | h :: t => String c h :: t
           | [] => [String c EmptyString]
           end
  end.

End strings.

(* ===================================================================== *)
(** * Package core: the persisted record and the repository interface *)
(* ===================================================================== *)

(** A Go [error] value.  [ErrNotFound] is [mgo.ErrNotFound]; every other
    error (driver, network, token verification) is kept with its text. *)
Inductive error : Type :=
| ErrNotFound
| ErrOther (msg : string).

Definition Error_ (e : error) : string :=
  match e with
  | ErrNotFound => "not found"
  | ErrOther msg => msg
  end.

Module core.

(** [type Kudo struct] with its seven string fields. *)
Record Kudo : Type := mkKudo {
  UserID : string;
  RepoID : string;
  RepoName : string;
  RepoURL : string;
  Language : string;
  Description : string;
  Notes : string
}.

(** The [bson] tags of [Kudo]: the document a record is stored as, and
    the record a document is decoded into (a field the document lacks
    keeps the zero value of the fresh struct). *)
Definition to_bson (k : Kudo) : gmap string string :=
  <["userId" := UserID k]> (<["repoId" := RepoID k]> (<["repoName" := RepoName k]>
  (<["repoUrl" := RepoURL k]> (<["language" := Language k]>
  (<["description" := Description k]> (<["notes" := Notes k]> ∅)))))).

(** The zero value of [Kudo], as [var kudo core.Kudo] declares it. *)
Definition Kudo_zero : Kudo :=
  {| UserID := EmptyString; RepoID := EmptyString; RepoName := EmptyString;
     RepoURL := EmptyString; Language := EmptyString;
     Description := EmptyString; Notes := EmptyString |}.

Definition of_bson (d : gmap string string) : Kudo :=
  {| UserID := default EmptyString (d !! "userId");
     RepoID := default EmptyString (d !! "repoId");
     RepoName := default EmptyString (d !! "repoName");
     RepoURL := default EmptyString (d !! "repoUrl");
     Language := default EmptyString (d !! "language");
     Description := default EmptyString (d !! "description");
     Notes := default EmptyString (d !! "notes") |}.

(** [type Repository interface]: every method runs against the state [S]
    of the implementation and returns the state it leaves behind. *)
Class Repository (S : Type) : Type := {
  Find : string -> S -> (Kudo + error) * S;
  FindAll : gmap string string -> S -> (list Kudo + error) * S;
  Delete : Kudo -> S -> option error * S;
  Update : Kudo -> S -> option error * S;
  Create : list Kudo -> S -> option error * S;
  Count : S -> (Z + error) * S
}.

End core.

(* ===================================================================== *)
(** * The mgo driver: one collection of BSON documents *)
(* ===================================================================== *)

Module mgo.

(** The database behind a dialled session (safe mode, the default of
    [mgo.Dial]): the documents of the collection in natural order; the
    error every operation currently fails with, if any (lost connection,
    server error); and the documents the server refuses to write, each
    with the error it answers (a document over the size limit, one that
    breaks a validation rule of the collection). *)
Record Database : Type := mkDatabase {
  documents : list (gmap string string);
  fault : option error;
  refused : list (gmap string string * error)
}.

(** The error the server answers a write of [d] with, if it refuses it. *)
Definition refusal (d : gmap string string) (db : Database) : option error :=
  match List.find (fun p => bool_decide (fst p = d)) (refused db) with
  | Some p => Some (snd p)
  | None => None
  end.

(** A selector [bson.M{k1: v1, ...}] matches the documents that carry each
    of its fields with an equal value. *)
Definition matches (selector d : gmap string string) : bool :=
  bool_decide (map_Forall (fun k v => d !! k = Some v) selector).

Fixpoint replace_first (p : gmap string string -> bool) (d' : gmap string string)
    (l : list (gmap string string)) : option (list (gmap string string)) :=
  match l with
  | [] => None
  | d :: r =>
      if p d then Some (d' :: r)
      else match replace_first p d' r with
           | Some r' => Some (d :: r')
           | None => None
           end
  end.

Fixpoint remove_first (p : gmap string string -> bool)
    (l : list (gmap string string)) : option (list (gmap string string)) :=
  match l with
  | [] => None
  | d :: r =>
      if p d then Some r
      else match remove_first p r with
           | Some r' => Some (d :: r')
           | None => None
           end
  end.

(** [coll.Find(selector).One(&result)] *)
Definition Find_One (selector : gmap string string) (db : Database)
  : gmap string string + error :=
  match fault db with
  | Some e => inr e
  | None =>
      match List.find (matches selector) (documents db) with
      | Some d => inl d
      | None => inr ErrNotFound
      end
  end.

(** [coll.Find(selector).All(&result)] *)
Definition Find_All (selector : gmap string string) (db : Database)
  : list (gmap string string) + error :=
  match fault db with
  | Some e => inr e
  | None => inl (List.filter (matches selector) (documents db))
  end.

(** [coll.Remove(selector)]: removes one matching document; in safe mode
    it returns [ErrNotFound] when no document matches. *)
Definition Remove (selector : gmap string string) (db : Database)
  : option error * Database :=
  match fault db with
  | Some e => (Some e, db)
  | None =>
      match remove_first (matches selector) (documents db) with
      | Some l => (None, mkDatabase l None (refused db))
      | None => (Some ErrNotFound, db)
      end
  end.

(** [coll.Update(selector, update)]: replaces one matching document;
    [ErrNotFound] when no document matches.  A write the server refuses
    changes nothing. *)
Definition Update (selector update : gmap string string) (db : Database)
  : option error * Database :=
  match fault db with
  | Some e => (Some e, db)
  | None =>
      match refusal update db with
      | Some e => (Some e, db)
      | None =>
          match replace_first (matches selector) update (documents db) with
          | Some l => (None, mkDatabase l None (refused db))
          | None => (Some ErrNotFound, db)
          end
      end
  end.

(** [coll.Upsert(selector, update)]: replaces one matching document, or
    inserts [update] when no document matches.  A write the server refuses
    changes nothing. *)
Definition Upsert (selector update : gmap string string) (db : Database)
  : option error * Database :=
  match fault db with
  | Some e => (Some e, db)
  | None =>
      match refusal update db with
      | Some e => (Some e, db)
      | None =>
          match replace_first (matches selector) update (documents db) with
          | Some l => (None, mkDatabase l None (refused db))
          | None => (None, mkDatabase (documents db ++ [update]) None (refused db))
          end
      end
  end.

(** [coll.Count()] *)
Definition Count (db : Database) : Z + error :=
  match fault db with
  | Some e => inr e
  | None => inl (Z.of_nat (length (documents db)))
  end.

End mgo.

(* ===================================================================== *)
(** * Package storage: the MongoDB implementation of the repository *)
(* ===================================================================== *)

Module storage.
Import core.

(** [type MongoRepository struct { logger; session }]: the session stands
    for the database it is connected to, the logger for the lines printed. *)
Record MongoRepository : Type := mkMongoRepository {
  logger : list string;
  session : mgo.Database
}.

Definition Printf_error (err : error) (r : MongoRepository) : MongoRepository :=
  {| logger := logger r ++ [String.append "[mongoDB] error: " (Error_ err)];
     session := session r |}.

Definition with_session (db : mgo.Database) (r : MongoRepository) : MongoRepository :=
  {| logger := logger r; session := db |}.

(** [func (r MongoRepository) Find(repoID string)], returning a [*core.Kudo] and an [error]:
    the selector reads [kudo.UserID] of the freshly declared [var kudo],
    which is the empty string. *)
Definition Find (repoID : string) (r : MongoRepository)
  : (Kudo + error) * MongoRepository :=
  let kudo := Kudo_zero in
  match mgo.Find_One (<["repoId" := repoID]> (<["userId" := UserID kudo]> ∅))
          (session r) with
  | inr err => (inr err, Printf_error err r)
  | inl d => (inl (of_bson d), r)
  end.

(** [func (r MongoRepository) FindAll(selector)], returning a slice of
    [*core.Kudo] and an [error] *)
Definition FindAll (selector : gmap string string) (r : MongoRepository)
  : (list Kudo + error) * MongoRepository :=
  match mgo.Find_All selector (session r) with
  | inr err => (inr err, Printf_error err r)
  | inl ds => (inl (List.map of_bson ds), r)
  end.

(** [func (r MongoRepository) Delete(kudo)] *)
Definition Delete (kudo : Kudo) (r : MongoRepository)
  : option error * MongoRepository :=
  let '(err, db) :=
    mgo.Remove (<["repoId" := RepoID kudo]> (<["userId" := UserID kudo]> ∅)) (session r) in
  (err, with_session db r).

(** [func (r MongoRepository) Update(kudo)] *)
Definition Update (kudo : Kudo) (r : MongoRepository)
  : option error * MongoRepository :=
  let '(err, db) :=
    mgo.Update (<["repoId" := RepoID kudo]> (<["userId" := UserID kudo]> ∅))
      (to_bson kudo) (session r) in
  (err, with_session db r).

(** [func (r MongoRepository) Create(kudos...)]: upserts
    the records in order and returns at the first error. *)
Fixpoint Create (kudos : list Kudo) (r : MongoRepository)
  : option error * MongoRepository :=
  match kudos with
  | [] => (None, r)
  | kudo :: rest =>
      let '(err, db) :=
        mgo.Upsert (<["repoId" := RepoID kudo]> (<["userId" := UserID kudo]> ∅))
          (to_bson kudo) (session r) in
      match err with
      | Some e => (Some e, with_session db r)
      | None => Create rest (with_session db r)
      end
  end.

(** [func (r MongoRepository) Count() (int, error)] *)
Definition Count (r : MongoRepository) : (Z + error) * MongoRepository :=
  (mgo.Count (session r), r).

#[global] Instance MongoRepository_Repository : Repository MongoRepository := {|
  core.Find := Find;
  core.FindAll := FindAll;
  core.Delete := Delete;
  core.Update := Update;
  core.Create := Create;
  core.Count := Count
|}.

End storage.

(* ===================================================================== *)
(** * Package kudo: the bookmark service bound to one user *)
(* ===================================================================== *)

Module kudo.
Import core.

(** [type GitHubRepo struct]: the external repository shape; [RepoID] is
    an [int64]. *)
Record GitHubRepo : Type := mkGitHubRepo {
  RepoID : Z;
  RepoURL : string;
  RepoName : string;
  Language : string;
  Description : string;
  Notes : string
}.

(** The zero value [kudo.GitHubRepo{}]. *)
Definition GitHubRepo_zero : GitHubRepo :=
  {| RepoID := 0; RepoURL := EmptyString; RepoName := EmptyString;
     Language := EmptyString; Description := EmptyString; Notes := EmptyString |}.

(** [type Service struct { userId string; repo core.Repository }]; the
    repository is the state the methods run against. *)
Record Service : Type := mkService { userId : string }.

Definition NewService (userId : string) : Service := {| userId := userId |}.

Definition githubRepoToKudo {T : strconv.Target} (s : Service) (githubRepo : GitHubRepo)
  : Kudo :=
  {| core.UserID := userId s;
     core.RepoID := strconv.Itoa (strconv.to_int (RepoID githubRepo));
     core.RepoName := RepoName githubRepo;
     core.RepoURL := RepoURL githubRepo;
     core.Language := Language githubRepo;
     core.Description := Description githubRepo;
     core.Notes := Notes githubRepo |}.

Section service.
Context {S : Type} `{!Repository S} {T : strconv.Target}.

Definition GetKudos (s : Service) (repo : S) : (list Kudo + error) * S :=
  FindAll (<["userId" := userId s]> ∅) repo.

Definition CreateKudoFor (s : Service) (githubRepo : GitHubRepo) (repo : S)
  : (Kudo + error) * S :=
  let kudo := githubRepoToKudo s githubRepo in
  let '(err, repo') := Create [kudo] repo in
  match err with
  | Some e => (inr e, repo')
  | None => (inl kudo, repo')
  end.

Definition UpdateKudoWith (s : Service) (githubRepo : GitHubRepo) (repo : S)
  : (Kudo + error) * S :=
  let kudo := githubRepoToKudo s githubRepo in
  let '(err, repo') := Create [kudo] repo in
  match err with
  | Some e => (inr e, repo')
  | None => (inl kudo, repo')
  end.

Definition RemoveKudo (s : Service) (githubRepo : GitHubRepo) (repo : S)
  : (Kudo + error) * S :=
  let kudo := githubRepoToKudo s githubRepo in
  let '(err, repo') := Delete kudo repo in
  match err with
  | Some e => (inr e, repo')
  | None => (inl kudo, repo')
  end.

End service.

End kudo.

(* ===================================================================== *)
(** * External collaborators: the token verifier and the JSON decoder *)
(* ===================================================================== *)

Module jwtverifier.

(** [type Jwt struct { Claims map[string]interface{} }] *)
Record Jwt : Type := mkJwt { Claims : gmap string iface }.

(** The verifier built by [jwtVerifierSetup.New()] with the issuer and the
    [aud]/[cid] claims to validate: the identity provider decides which
    tokens it accepts. *)
Class Verifier : Type := {
  VerifyIdToken : string -> Jwt + error
}.

End jwtverifier.

Module json.

Inductive DecodeError : Type :=
| SyntaxError (msg : string)
| UnmarshalTypeError (msg : string).

(** [json.Unmarshal(data, &v)] for [v] a [kudo.GitHubRepo]: it returns
    the value left in [v] and the error.  The decoder checks that [data]
    is well-formed JSON before it stores anything, so a syntax error
    leaves [v] as it was. *)
Class Decoder : Type := {
  Unmarshal : string -> kudo.GitHubRepo -> kudo.GitHubRepo * option DecodeError;
  Unmarshal_syntax : forall data v v' msg,
    Unmarshal data v = (v', Some (SyntaxError msg)) -> v' = v
}.

End json.

(* ===================================================================== *)
(** * Package http: middlewares and handlers *)
(* ===================================================================== *)

Module http.
Import core.
Local Open Scope Z_scope.

Definition StatusOK : Z := 200.
Definition StatusCreated : Z := 201.
Definition StatusForbidden : Z := 403.
Definition StatusInternalServerError : Z := 500.

(** The four routes registered on the router; [id] is [params.ByName("id")].
    A request is taken after it has been matched to one of them: what
    [httprouter] itself answers to a path or method it does not know
    (404, 405, a redirect) and the preflight that [rs/cors] answers
    are outside this type. *)
Inductive Route : Type :=
| GET_kudos
| POST_kudos
| DELETE_kudos (id : string)
| PUT_kudos (id : string).

Definition Method (rt : Route) : string :=
  match rt with
  | GET_kudos => "GET"
  | POST_kudos => "POST"
  | DELETE_kudos _ => "DELETE"
  | PUT_kudos _ => "PUT"
  end.

Definition RequestURI (rt : Route) : string :=
  match rt with
  | GET_kudos | POST_kudos => "/kudos"
  | DELETE_kudos id | PUT_kudos id => String.append "/kudos/" id
  end.

(** [*http.Request]: the matched route, the header map, the body bytes
    and the values of the request context. *)
Record Request : Type := mkRequest {
  route : Route;
  Header : gmap string (list string);
  Body : string;
  Context : gmap string iface
}.

Definition WithContext (key : string) (v : iface) (r : Request) : Request :=
  {| route := route r; Header := Header r; Body := Body r;
     Context := <[key := v]> (Context r) |}.

(** What a handler writes to the body: raw bytes, or the JSON encoding of
    a record or of a list of records. *)
Inductive Payload : Type :=
| Bytes (b : string)
| JSON_Kudo (k : Kudo)
| JSON_Kudos (ks : list Kudo).

(** [http.ResponseWriter]: the header map handlers mutate, and what has
    been committed: [WriteHeader] freezes the status and the header map as
    it stands at that moment. *)
Record ResponseWriter : Type := mkResponseWriter {
  header : gmap string (list string);
  wroteHeader : bool;
  status : Z;
  sentHeader : gmap string (list string);
  body : list Payload
}.

Definition newResponseWriter : ResponseWriter :=
  {| header := ∅; wroteHeader := false; status := 0; sentHeader := ∅; body := [] |}.

Definition Header_Set (key value : string) (w : ResponseWriter) : ResponseWriter :=
  {| header := <[key := [value]]> (header w); wroteHeader := wroteHeader w;
     status := status w; sentHeader := sentHeader w; body := body w |}.

Definition Header_Add (key value : string) (w : ResponseWriter) : ResponseWriter :=
  {| header := <[key := default [] (header w !! key) ++ [value]]> (header w);
     wroteHeader := wroteHeader w;
     status := status w; sentHeader := sentHeader w; body := body w |}.

Definition WriteHeader (code : Z) (w : ResponseWriter) : ResponseWriter :=
  if wroteHeader w then w
  else {| header := header w; wroteHeader := true; status := code;
          sentHeader := header w; body := body w |}.

Definition Write (p : Payload) (w : ResponseWriter) : ResponseWriter :=
  let w := WriteHeader StatusOK w in
  {| header := header w; wroteHeader := wroteHeader w; status := status w;
     sentHeader := sentHeader w; body := body w ++ [p] |}.

(** Everything a request can touch: its response writer, the repository
    injected into [http.Service], and the process log. *)
Record World (S : Type) : Type := mkWorld {
  w : ResponseWriter;
  repo : S;
  stdlog : list string
}.
Arguments mkWorld {S} w repo stdlog.
Arguments w {S} _.
Arguments repo {S} _.
Arguments stdlog {S} _.

Definition on_w {S} (f : ResponseWriter -> ResponseWriter) (wd : World S) : World S :=
  {| w := f (w wd); repo := repo wd; stdlog := stdlog wd |}.

Definition with_repo {S} (s : S) (wd : World S) : World S :=
  {| w := w wd; repo := s; stdlog := stdlog wd |}.

Definition Handler (S : Type) : Type := Request -> World S -> outcome (World S).

Section middlewares.
Context {S : Type} `{!jwtverifier.Verifier}.

Definition validateAccessToken (accessToken : list string)
  : outcome (jwtverifier.Jwt + error) :=
  match accessToken with
  | [] => Panicked "runtime error: index out of range [0] with length 0"
  | a0 :: _ =>
      let parts := strings.Split a0 " " in
      match nth_error parts 1 with
      | None => Panicked "runtime error: index out of range [1] with length 1"
      | Some token => Returned (jwtverifier.VerifyIdToken token)
      end
  end.

Definition OktaAuth (h : Handler S) : Handler S := fun r wd =>
  let accessToken := default [] (Header r !! "Authorization") in
  match validateAccessToken accessToken with
  | Panicked msg => Panicked msg
  | Returned (inr err) =>
      Returned (on_w (Write (Bytes (Error_ err)))
                  (on_w (WriteHeader StatusForbidden) wd))
  | Returned (inl jwt) =>
      match jwtverifier.Claims jwt !! "sub" with
      | Some (IString sub) => h (WithContext "userId" (IString sub) r) wd
      | _ => Panicked "interface conversion: interface {} is not string"
      end
  end.

Definition JSONApi (h : Handler S) : Handler S := fun r wd =>
  h r (on_w (Header_Set "Content-Type" "application/json") wd).

Definition AccsessLog (h : Handler S) : Handler S := fun r wd =>
  let line := String.append (Method (route r))
                (String.append ": " (RequestURI (route r))) in
  h r {| w := w wd; repo := repo wd; stdlog := stdlog wd ++ [line] |}.

(** [cors.New(options).Handler(h)] on the four routes, none of which is a
    preflight: [Vary: Origin] is added, a request that names an origin is
    allowed (no origin list is configured, so every origin is), and [h]
    runs. *)
Definition Cors (h : Handler S) : Handler S := fun r wd =>
  let wd := on_w (Header_Add "Vary" "Origin") wd in
  match Header r !! "Origin" with
  | Some (origin :: _) =>
      if String.eqb origin EmptyString then h r wd
      else h r (on_w (Header_Set "Access-Control-Allow-Origin" "*") wd)
  | _ => h r wd
  end.

Definition UseMiddlewares (h : Handler S) : Handler S :=
  let h := JSONApi h in
  let h := OktaAuth h in
  let h := Cors h in
  AccsessLog h.

End middlewares.

Section handlers.
Context {S : Type} `{!Repository S} `{!jwtverifier.Verifier} `{!json.Decoder}
  {T : strconv.Target}.

(** [r.Context().Value("userId").(string)] *)
Definition Context_userId (r : Request) : outcome string :=
  match Context r !! "userId" with
  | Some (IString s) => Returned s
  | _ => Panicked "interface conversion: interface {} is not string"
  end.

Definition Index : Handler S := fun r wd =>
  match Context_userId r with
  | Panicked msg => Panicked msg
  | Returned uid =>
      let service := kudo.NewService uid in
      let '(res, repo') := kudo.GetKudos service (repo wd) in
      let wd := with_repo repo' wd in
      match res with
      | inr _ => Returned (on_w (WriteHeader StatusInternalServerError) wd)
      | inl kudos =>
          Returned (on_w (Write (JSON_Kudos kudos)) (on_w (WriteHeader StatusOK) wd))
      end
  end.

Definition Create : Handler S := fun r wd =>
  match Context_userId r with
  | Panicked msg => Panicked msg
  | Returned uid =>
      let service := kudo.NewService uid in
      let payload := Body r in
      let githubRepo := kudo.GitHubRepo_zero in
      let '(githubRepo, _) := json.Unmarshal payload githubRepo in
      let '(res, repo') := kudo.CreateKudoFor service githubRepo (repo wd) in
      let wd := with_repo repo' wd in
      match res with
      | inr _ => Returned (on_w (WriteHeader StatusInternalServerError) wd)
      | inl kudo =>
          Returned (on_w (Write (JSON_Kudo kudo)) (on_w (WriteHeader StatusCreated) wd))
      end
  end.

Definition Delete (id : string) : Handler S := fun r wd =>
  match Context_userId r with
  | Panicked msg => Panicked msg
  | Returned uid =>
      let service := kudo.NewService uid in
      let '(repoID, _) := strconv.Atoi id in
      let githubRepo :=
        {| kudo.RepoID := strconv.to_int64 repoID; kudo.RepoURL := EmptyString;
           kudo.RepoName := EmptyString; kudo.Language := EmptyString;
           kudo.Description := EmptyString; kudo.Notes := EmptyString |} in
      let '(res, repo') := kudo.RemoveKudo service githubRepo (repo wd) in
      let wd := with_repo repo' wd in
      match res with
      | inr _ => Returned (on_w (WriteHeader StatusInternalServerError) wd)
      | inl _ => Returned (on_w (WriteHeader StatusOK) wd)
      end
  end.

Definition Update (id : string) : Handler S := fun r wd =>
  match Context_userId r with
  | Panicked msg => Panicked msg
  | Returned uid =>
      let service := kudo.NewService uid in
      let payload := Body r in
      let githubRepo := kudo.GitHubRepo_zero in
      let '(githubRepo, _) := json.Unmarshal payload githubRepo in
      let '(res, repo') := kudo.UpdateKudoWith service githubRepo (repo wd) in
      let wd := with_repo repo' wd in
      match res with
      | inr _ => Returned (on_w (WriteHeader StatusInternalServerError) wd)
      | inl kudo =>
          Returned (on_w (Write (JSON_Kudo kudo)) (on_w (WriteHeader StatusOK) wd))
      end
  end.

(** The [httprouter] routing table built by [New]. *)
Definition router : Handler S := fun r wd =>
  match route r with
  | GET_kudos => Index r wd
  | POST_kudos => Create r wd
  | DELETE_kudos id => Delete id r wd
  | PUT_kudos id => Update id r wd
  end.

(** [service.Router = UseMiddlewares(router)] *)
Definition Router : Handler S := UseMiddlewares router.

(** One request served against the repository state [s]: the committed
    response and the state left behind, or the panic that aborted the
    handler (the server then drops the connection without a response). *)
Definition serve (r : Request) (s : S) : outcome (World S) :=
  Router r {| w := newResponseWriter; repo := s; stdlog := [] |}.

End handlers.

End http.

(* ===================================================================== *)
(** * The build target of the statements *)
(* ===================================================================== *)

(** The vocabulary, the scenarios and the statements that follow are
    about the 64-bit build (amd64, arm64), except where a statement binds
    the target itself. *)
#[global] Existing Instance strconv.GOARCH_amd64.

(* ===================================================================== *)
(** * The page: what component Home keeps and how a click changes it *)

Module js.
Local Open Scope Z_scope.

(** The values the property [id] holds on the page: a number in a
    repository of the GitHub search, a string in a record of the API
    (core.Kudo carries RepoID, a Go string, under the JSON key "id"). *)
Inductive Id :=
  | Num (n : Z)
  | Str (s : string).

(** ToNumber on a string, as the engine has it: the integer the string
    denotes, [None] when it denotes none (NaN, or a number with a
    fraction, which equals no integer). *)
Class Engine := { StringToNumber : string -> option Z }.

(** [x == y]: same type, compare; a number and a string, compare the
    number with ToNumber of the string. *)
Definition loose_eq `{Engine} (x y : Id) : bool :=
  match x, y with
  | Num a, Num b => a =? b
  | Str a, Str b => String.eqb a b
  | Num a, Str b =>
      match StringToNumber b with Some n => a =? n | None => false end
  | Str a, Num b =>
      match StringToNumber a with Some n => n =? b | None => false end
  end.

(** [x === y]: different types are never equal. *)
Definition strict_eq (x y : Id) : bool :=
  match x, y with
  | Num a, Num b => a =? b
  | Str a, Str b => String.eqb a b
  | _, _ => false
  end.

(** [x !== y] *)
Definition strict_ne (x y : Id) : bool := negb (strict_eq x y).

(** An object of the page: its [id] and its other properties. *)
Record Repo := {
  id : Id;
  properties : gmap string string
}.

End js.

(** Home.js as the tutorial leaves it, wired to the API. *)
Module Home.
Import js.
Local Open Scope Z_scope.

Record State := {
  value : Z;
  repos : list Repo;
  kudos : list Repo
}.

Definition state : State := {| value := 0; repos := []; kudos := [] |}.

(** The calls the component makes on its API client. *)
Inductive ApiCall :=
  | getKudos
  | createKudo (repo : Repo)
  | deleteKudo (repo : Repo).

(** [this.setState({...this.state, kudos})] *)
Definition setKudos (st : State) (ks : list Repo) : State :=
  {| value := value st; repos := repos st; kudos := ks |}.

(** The callback of [componentDidMount]: the records of the API become
    the bookmarks of the page. *)
Definition componentDidMount (st : State) (data : list Repo) : State :=
  setKudos st data.

(** [this.setState({ value })] *)
Definition handleTabChange (st : State) (v : Z) : State :=
  {| value := v; repos := repos st; kudos := kudos st |}.

(** [this.setState({ ...this.state, repos })] *)
Definition resetRepos (st : State) (rs : list Repo) : State :=
  {| value := value st; repos := rs; kudos := kudos st |}.

Section page.
Context `{!Engine}.

(** [this.state.kudos.find(r => r.id == repo.id)] *)
Definition isKudo (st : State) (repo : Repo) : option Repo :=
  List.find (fun r => loose_eq (id r) (id repo)) (kudos st).

Definition updateState (st : State) (repo : Repo) : State :=
  match isKudo st repo with
  | Some _ =>
      setKudos st (List.filter (fun r => strict_ne (id r) (id repo)) (kudos st))
  | None =>
      setKudos st (repo :: kudos st)
  end.

(** The call sent to the API client and the state set; the answer of the
    call is not awaited. *)
Definition updateBackend (st : State) (repo : Repo) : ApiCall * State :=
  ((match isKudo st repo with
    | Some _ => deleteKudo repo
    | None => createKudo repo
    end),
   updateState st repo).

Definition onKudo (st : State) (repo : Repo) : ApiCall * State :=
  updateBackend st repo.

End page.

End Home.

(** Home.js before it is wired to the API: bookmarks live on the page
    only. *)
Module Home_local.
Import js.

Definition onKudo (st : Home.State) (repo : Repo) : Home.State :=
  match List.find (fun r => strict_eq (id r) (id repo)) (Home.kudos st) with
  | Some _ =>
      Home.setKudos st
        (List.filter (fun r => strict_ne (id r) (id repo)) (Home.kudos st))
  | None =>
      Home.setKudos st (repo :: Home.kudos st)
  end.

End Home_local.
(* ===================================================================== *)
(** * Vocabulary of the statements *)
(* ===================================================================== *)

Module strconv_spec.
Import strconv.
Local Open Scope Z_scope.

(** The length below which [Atoi] takes its fast path. *)
Definition fast_path_length {T : Target} : Z :=
  match int_width with
  | Int32 => 10
  | Int64 => 19
  end.

Definition starts_with_digit (s : string) : Prop :=
  exists d rest, 0 <= d <= 9 /\ s = String (digit d) rest.

Definition is_digit (c : ascii) : bool :=
  (48 <=? byte_of c) && (byte_of c <=? 57).

Fixpoint all_digits (s : string) : bool :=
  match s with
  | EmptyString => true
  | String c r => is_digit c && all_digits r
  end.


End strconv_spec.

Module store_spec.

(** The key of a stored document: its owner and repository identifiers. *)
Definition has_key (owner repoID : string) (d : gmap string string) : Prop :=
  d !! "userId" = Some owner /\ d !! "repoId" = Some repoID.

#[global] Instance has_key_dec owner repoID d : Decision (has_key owner repoID d).
Proof. unfold has_key. apply _. Defined.

Definition keyed (owner repoID : string) (d : gmap string string) : bool :=
  bool_decide (has_key owner repoID d).

Definition owned_by (owner : string) (d : gmap string string) : bool :=
  bool_decide (d !! "userId" = Some owner).

(** The records a collection holds under one key, in store order. *)
Definition records_for (owner repoID : string) (docs : list (gmap string string))
  : list (gmap string string) :=
  List.filter (keyed owner repoID) docs.

(** The records of a collection that belong to one owner. *)
Definition records_of (owner : string) (docs : list (gmap string string))
  : list (gmap string string) :=
  List.filter (owned_by owner) docs.

(** Data-model invariant: at most one record per (owner, repository). *)
Definition unique_keys (docs : list (gmap string string)) : Prop :=
  forall owner repoID, (length (records_for owner repoID docs) <= 1)%nat.

(** The documents held by a repository value. *)
Definition stored (r : storage.MongoRepository) : list (gmap string string) :=
  mgo.documents (storage.session r).

(** The database answers and takes every document: no connection or
    server fault is pending and it refuses no write. *)
Definition healthy (db : mgo.Database) : bool :=
  match mgo.fault db, mgo.refused db with
  | None, [] => true
  | _, _ => false
  end.

Definition reachable (r : storage.MongoRepository) : Prop :=
  healthy (storage.session r) = true.

End store_spec.

Module kudo_spec.
Import core.

(** One call on a [kudo.Service], and what it returned. *)
Inductive Call : Type :=
| GetKudos
| CreateKudoFor (githubRepo : kudo.GitHubRepo)
| UpdateKudoWith (githubRepo : kudo.GitHubRepo)
| RemoveKudo (githubRepo : kudo.GitHubRepo).

Inductive Reply : Type :=
| Listed (res : list Kudo + error)
| Mapped (res : Kudo + error).

Definition run_call {S : Type} `{!Repository S} (s : kudo.Service) (c : Call) (repo : S)
  : Reply * S :=
  match c with
  | GetKudos => let '(res, repo') := kudo.GetKudos s repo in (Listed res, repo')
  | CreateKudoFor g => let '(res, repo') := kudo.CreateKudoFor s g repo in (Mapped res, repo')
  | UpdateKudoWith g => let '(res, repo') := kudo.UpdateKudoWith s g repo in (Mapped res, repo')
  | RemoveKudo g => let '(res, repo') := kudo.RemoveKudo s g repo in (Mapped res, repo')
  end.



End kudo_spec.

(** Stores that arise from an empty collection through service calls, with
    the database free to fail or recover between calls. *)
Module history.
Import kudo_spec.

Definition with_fault (f : option error) (r : storage.MongoRepository)
  : storage.MongoRepository :=
  {| storage.logger := storage.logger r;
     storage.session := {| mgo.documents := mgo.documents (storage.session r);
                           mgo.fault := f;
                           mgo.refused := mgo.refused (storage.session r) |} |}.

Definition with_refused (rf : list (gmap string string * error))
    (r : storage.MongoRepository) : storage.MongoRepository :=
  {| storage.logger := storage.logger r;
     storage.session := {| mgo.documents := mgo.documents (storage.session r);
                           mgo.fault := mgo.fault (storage.session r);
                           mgo.refused := rf |} |}.

Inductive produced : storage.MongoRepository -> Prop :=
| produced_empty lg f rf :
    produced {| storage.logger := lg;
                storage.session := {| mgo.documents := []; mgo.fault := f;
                                      mgo.refused := rf |} |}
| produced_fault f r : produced r -> produced (with_fault f r)
| produced_refused rf r : produced r -> produced (with_refused rf r)
| produced_call s c r : produced r -> produced (snd (run_call s c r)).

End history.

(** Concrete requests and stores used to exercise the statements. *)
Module scenario.
Local Open Scope Z_scope.

Definition u1 : kudo.Service := kudo.NewService "u1".
Definition u2 : kudo.Service := kudo.NewService "u2".

Definition foo_bar : kudo.GitHubRepo :=
  {| kudo.RepoID := 42; kudo.RepoURL := "https://x"; kudo.RepoName := "foo/bar";
     kudo.Language := "Go"; kudo.Description := "d"; kudo.Notes := EmptyString |}.

Definition foo_bar_edited : kudo.GitHubRepo :=
  {| kudo.RepoID := 42; kudo.RepoURL := "https://x"; kudo.RepoName := "foo/bar";
     kudo.Language := "Go"; kudo.Description := "a new description";
     kudo.Notes := "read later" |}.

Definition baz : kudo.GitHubRepo :=
  {| kudo.RepoID := 7; kudo.RepoURL := "https://y"; kudo.RepoName := "baz/qux";
     kudo.Language := "Rust"; kudo.Description := EmptyString;
     kudo.Notes := EmptyString |}.

Definition store_of (docs : list (gmap string string)) : storage.MongoRepository :=
  {| storage.logger := [];
     storage.session := {| mgo.documents := docs; mgo.fault := None;
                           mgo.refused := [] |} |}.

Definition empty_store : storage.MongoRepository := store_of [].

(** An empty store whose database refuses the record of [baz] for [u1]
    and takes every other document. *)
Definition store_refusing_baz : storage.MongoRepository :=
  {| storage.logger := [];
     storage.session :=
       {| mgo.documents := []; mgo.fault := None;
          mgo.refused := [(core.to_bson (kudo.githubRepoToKudo u1 baz),
                           ErrOther "document is too large")] |} |}.

(** The store after [u1] has bookmarked [foo_bar]. *)
Definition store_u1_foo_bar : storage.MongoRepository :=
  store_of [core.to_bson (kudo.githubRepoToKudo u1 foo_bar)].

(** A store shared by two users. *)
Definition store_two_users : storage.MongoRepository :=
  store_of [core.to_bson (kudo.githubRepoToKudo u2 foo_bar);
            core.to_bson (kudo.githubRepoToKudo u1 baz)].


Definition max_repo : kudo.GitHubRepo :=
  {| kudo.RepoID := 9223372036854775807; kudo.RepoURL := EmptyString;
     kudo.RepoName := EmptyString; kudo.Language := EmptyString;
     kudo.Description := EmptyString; kudo.Notes := EmptyString |}.

(** The value a decoder leaves when it could read the identifier 7 and
    nothing else. *)
Definition baz_id_only : kudo.GitHubRepo :=
  {| kudo.RepoID := 7; kudo.RepoURL := EmptyString; kudo.RepoName := EmptyString;
     kudo.Language := EmptyString; kudo.Description := EmptyString;
     kudo.Notes := EmptyString |}.

(** Two identifiers that agree in their low 32 bits. *)
Definition one_repo : kudo.GitHubRepo :=
  {| kudo.RepoID := 1; kudo.RepoURL := EmptyString; kudo.RepoName := EmptyString;
     kudo.Language := EmptyString; kudo.Description := EmptyString;
     kudo.Notes := EmptyString |}.

Definition wide_repo : kudo.GitHubRepo :=
  {| kudo.RepoID := 4294967297; kudo.RepoURL := EmptyString;
     kudo.RepoName := EmptyString; kudo.Language := EmptyString;
     kudo.Description := EmptyString; kudo.Notes := EmptyString |}.


(** An identity provider that knows one token, issued to "u1". *)
#[global] Instance okta : jwtverifier.Verifier := {|
  jwtverifier.VerifyIdToken token :=
    if String.eqb token "token-of-u1"
    then inl {| jwtverifier.Claims := <["sub" := IString "u1"]> ∅ |}
    else inr (ErrOther "token is not valid")
|}.

(** A decoder for the documents made of an [id] member alone: the bytes
    [{], ["id":], a decimal integer and [}].  Any other input is reported
    as a syntax error. *)
Definition id_member : string :=
  String "{" (String "034" (String "i" (String "d" (String "034" (String ":" EmptyString))))).

Definition decode_id (data : string) (v : kudo.GitHubRepo)
  : kudo.GitHubRepo * option json.DecodeError :=
  let n := String.length data in
  if String.prefix id_member data
     && String.eqb (String.substring (n - 1) 1 data) "}" then
    match strconv.Atoi (String.substring 6 (n - 7) data) with
    | (i, None) =>
        ({| kudo.RepoID := i; kudo.RepoURL := kudo.RepoURL v;
            kudo.RepoName := kudo.RepoName v; kudo.Language := kudo.Language v;
            kudo.Description := kudo.Description v; kudo.Notes := kudo.Notes v |},
         None)
    | (_, Some _) => (v, Some (json.SyntaxError "invalid character in numeric literal"))
    end
  else (v, Some (json.SyntaxError "invalid character looking for beginning of value")).

#[global, refine] Instance decoder : json.Decoder := {|
  json.Unmarshal := decode_id
|}.
Proof.
  intros data v v' msg. unfold decode_id.
  destruct (_ && _); [|now inversion 1].
  destruct (strconv.Atoi _) as [i [e|]]; now inversion 1.
Defined.

(** The document [{"id":7,"full_name":5}]: well-formed JSON whose
    [full_name] member is a number where the struct has a string. *)
Definition quote : string := String "034" EmptyString.

Definition wrong_shape_body : string :=
  String.append id_member
    (String.append "7,"
       (String.append quote
          (String.append "full_name" (String.append quote ":5}")))).

(** A decoder that, on the document above, does what [encoding/json]
    does with a member of the wrong type: it skips that member, stores
    the others and returns the type error.  Any other input is handled as
    by [decode_id]. *)
Definition decode_typed (data : string) (v : kudo.GitHubRepo)
  : kudo.GitHubRepo * option json.DecodeError :=
  if String.eqb data wrong_shape_body then
    ({| kudo.RepoID := 7; kudo.RepoURL := kudo.RepoURL v;
        kudo.RepoName := kudo.RepoName v; kudo.Language := kudo.Language v;
        kudo.Description := kudo.Description v; kudo.Notes := kudo.Notes v |},
     Some (json.UnmarshalTypeError
             "json: cannot unmarshal number into Go struct field GitHubRepo.full_name of type string"))
  else decode_id data v.

#[local, refine] Instance typed_decoder : json.Decoder | 100 := {|
  json.Unmarshal := decode_typed
|}.
Proof.
  intros data v v' msg. unfold decode_typed.
  destruct (String.eqb data wrong_shape_body); [now inversion 1|].
  apply (json.Unmarshal_syntax (Decoder := decoder)).
Defined.

Definition bearer (token : string) : gmap string (list string) :=
  <["Authorization" := [String.append "Bearer " token]]> ∅.

Definition request (rt : http.Route) (hdr : gmap string (list string)) (payload : string)
  : http.Request :=
  {| http.route := rt; http.Header := hdr; http.Body := payload; http.Context := ∅ |}.

(** The document [{"id":N}] for the decimal text of [N]. *)
Definition id_document (digits : string) : string :=
  String.append id_member (String.append digits "}").

End scenario.

Module http_spec.
Import http.

(** The header additions of [Cors] for a request that is not a preflight. *)
Definition cors_headers (r : Request) (rw : ResponseWriter) : ResponseWriter :=
  let rw := Header_Add "Vary" "Origin" rw in
  match Header r !! "Origin" with
  | Some (origin :: _) =>
      if String.eqb origin EmptyString then rw
      else Header_Set "Access-Control-Allow-Origin" "*" rw
  | _ => rw
  end.

(** The world in which the gate runs: the access log line is written and
    the cross-origin headers are set. *)
Definition at_gate {S : Type} (r : Request) (wd : World S) : World S :=
  on_w (cors_headers r)
    {| w := w wd; repo := repo wd;
       stdlog := stdlog wd ++ [String.append (Method (route r))
                                 (String.append ": " (RequestURI (route r)))] |}.

(** What the gate reads: [r.Header["Authorization"]]. *)
Definition authorization (r : Request) : list string :=
  default [] (Header r !! "Authorization").

(** The value of a header in the committed response, as [Header.Get]
    reports it. *)
Definition sent (key : string) (wd : World storage.MongoRepository) : option (list string) :=
  sentHeader (w wd) !! key.

(** What the client of a served request observes, with the store the
    request leaves behind: status, body; nothing when the handler
    panicked. *)
Definition answered (o : outcome (World storage.MongoRepository))
  : option (Z * list Payload * storage.MongoRepository) :=
  match o with
  | Returned wd => Some (status (w wd), body (w wd), repo wd)
  | Panicked _ => None
  end.


(** The routes whose handlers decode a request body. *)
Definition carries_body (rt : Route) : bool :=
  match rt with
  | POST_kudos | PUT_kudos _ => true
  | GET_kudos | DELETE_kudos _ => false
  end.

(** The external representation the [Delete] handler builds from the
    parsed path identifier. *)
Definition repo_with_id (repoID : Z) : kudo.GitHubRepo :=
  {| kudo.RepoID := strconv.to_int64 repoID; kudo.RepoURL := EmptyString;
     kudo.RepoName := EmptyString; kudo.Language := EmptyString;
     kudo.Description := EmptyString; kudo.Notes := EmptyString |}.

(** The record [Create] and [Update] store for a body that left the
    decoded value at its zero value. *)
Definition zero_record (owner : string) : core.Kudo :=
  {| core.UserID := owner; core.RepoID := "0"; core.RepoName := EmptyString;
     core.RepoURL := EmptyString; core.Language := EmptyString;
     core.Description := EmptyString; core.Notes := EmptyString |}.

End http_spec.

Module kudo_more_spec.
Import kudo_spec.

(** The error a reply carries, if it is one. *)
Definition reply_error (rep : Reply) : option error :=
  match rep with
  | Listed (inr e) | Mapped (inr e) => Some e
  | _ => None
  end.

(** The listed records that carry a given repository identifier. *)
Definition listed_with_id (repoID : string) (ks : list core.Kudo) : list core.Kudo :=
  List.filter (fun k => String.eqb (core.RepoID k) repoID) ks.

End kudo_more_spec.

Module http_more_spec.
Import http kudo_spec kudo_more_spec http_spec.
Local Open Scope Z_scope.

(** The service call a routed request stands for: the call its handler
    makes once the body or the path identifier is decoded. *)
Definition call_of `{!json.Decoder} (r : Request) : Call :=
  match route r with
  | GET_kudos => GetKudos
  | POST_kudos => CreateKudoFor (fst (json.Unmarshal (Body r) kudo.GitHubRepo_zero))
  | DELETE_kudos id => RemoveKudo (repo_with_id (fst (strconv.Atoi id)))
  | PUT_kudos _ => UpdateKudoWith (fst (json.Unmarshal (Body r) kudo.GitHubRepo_zero))
  end.

(** The status a handler picks for what the service returned. *)
Definition status_for (rt : Route) (rep : Reply) : Z :=
  match reply_error rep, rt with
  | Some _, _ => StatusInternalServerError
  | None, POST_kudos => StatusCreated
  | None, _ => StatusOK
  end.

(** The body a handler writes for what the service returned. *)
Definition body_for (rt : Route) (rep : Reply) : list Payload :=
  match rep, rt with
  | Listed (inl ks), _ => [JSON_Kudos ks]
  | Mapped (inl _), DELETE_kudos _ => []
  | Mapped (inl k), _ => [JSON_Kudo k]
  | _, _ => []
  end.

(** The line [AccsessLog] prints for a request. *)
Definition log_line (r : Request) : string :=
  String.append (Method (route r)) (String.append ": " (RequestURI (route r))).

(** Strings without a space. *)
Fixpoint no_space (s : string) : bool :=
  match s with
  | EmptyString => true
  | String c rest => negb (Ascii.eqb c " ") && no_space rest
  end.

(** What may follow the token in a header value: nothing, or a space and
    any text. *)
Definition token_tail (tail : string) : bool :=
  match tail with
  | EmptyString => true
  | String c _ => Ascii.eqb c " "
  end.

End http_more_spec.


Module page_spec.
Import js.
Local Open Scope Z_scope.

(** A record of the API as the page receives it: core.Kudo under its JSON
    keys, the identifier a string. *)
Definition fromKudo (k : core.Kudo) : Repo :=
  {| id := Str (core.RepoID k);
     properties :=
       <["user_id" := core.UserID k]>
       (<["full_name" := core.RepoName k]>
       (<["html_url" := core.RepoURL k]>
       (<["language" := core.Language k]>
       (<["description" := core.Description k]>
       (<["notes" := core.Notes k]> ∅))))) |}.

(** A repository as the GitHub search returns it: the identifier a
    number. *)
Definition fromSearch (n : Z) (props : gmap string string) : Repo :=
  {| id := Num n; properties := props |}.

(** Every bookmark of the page has a number as its identifier. *)
Definition numbered (st : Home.State) : Prop :=
  List.Forall (fun r => exists n, id r = Num n) (Home.kudos st).

(** [k] clicks on the heart of the same repository: the calls sent, in
    order, and the state reached. *)
Fixpoint clicks `{!Engine} (k : nat) (st : Home.State) (repo : Repo)
    : list Home.ApiCall * Home.State :=
  match k with
  | O => ([], st)
  | S k' =>
      let '(call, st') := Home.onKudo st repo in
      let '(calls, st'') := clicks k' st' repo in
      (call :: calls, st'')
  end.

(** An engine that reads plain decimal integers. *)
Definition decimal_engine : Engine :=
  {| StringToNumber := fun s =>
       match strconv.Atoi s with
       | (n, None) => Some n
       | (_, Some _) => None
       end |}.

End page_spec.
(* ===================================================================== *)
(** * Properties of the integer conversions *)
(* ===================================================================== *)

Module strconv_facts.
Import strconv strconv_spec.
Local Open Scope Z_scope.

Lemma pow2_63 : 2 ^ 63 = 9223372036854775808.
Proof. reflexivity. Qed.

Lemma pow2_64 : 2 ^ 64 = 18446744073709551616.
Proof. reflexivity. Qed.

Lemma pow2_31 : 2 ^ 31 = 2147483648.
Proof. reflexivity. Qed.

Lemma pow2_32 : 2 ^ 32 = 4294967296.
Proof. reflexivity. Qed.

Lemma cutoff10_value : cutoff10 = 1844674407370955162.
Proof. reflexivity. Qed.

Ltac constants :=
  unfold is_int64, minInt64, maxInt64 in *;
  rewrite ?cutoff10_value, ?pow2_63, ?pow2_64 in *.

(** The two widths of [int], with the powers of two written out. *)
Ltac widths T :=
  destruct T as [[|]];
  [ change (@intSize {| int_width := Int32 |}) with 32 in *;
    change (32 - 1) with 31 in *; rewrite ?pow2_31, ?pow2_32 in *
  | change (@intSize {| int_width := Int64 |}) with 64 in *;
    change (64 - 1) with 63 in *; rewrite ?pow2_63, ?pow2_64 in * ].

Ltac int_bounds T :=
  unfold is_int, is_int64, minInt64, maxInt64 in *; widths T; lia.

Lemma wrap_signed_64_id x :
  - 2 ^ 63 <= x < 2 ^ 63 -> wrap_signed 64 x = x.
Proof.
  intros Hx. unfold wrap_signed.
  change (64 - 1) with 63. rewrite pow2_63, pow2_64 in *.
  rewrite Z.mod_small; lia.
Qed.

(** The width matters: a conversion to 32 bits is not the identity on
    the 64-bit values. *)
Remark wrap_signed_32_narrows : wrap_signed 32 4294967297 = 1.
Proof. reflexivity. Qed.

Lemma to_int64_id x : is_int64 x -> to_int64 x = x.
Proof. intros Hx. apply wrap_signed_64_id. constants. lia. Qed.

(** On amd64 the values of [int] are those of [int64]. *)
Lemma is_int_amd64 x : is_int (T := GOARCH_amd64) x <-> is_int64 x.
Proof. reflexivity. Qed.

Lemma is_int_is_int64 {T : Target} x : is_int x -> is_int64 x.
Proof. intros Hx. int_bounds T. Qed.

(** The conversion to [int] keeps the values of [int], and it yields
    nothing else. *)
Lemma to_int_id {T : Target} x : is_int x -> to_int x = x.
Proof.
  intros Hx. unfold is_int, to_int, wrap_signed in *.
  widths T; rewrite Z.mod_small; lia.
Qed.

Lemma to_int_is_int {T : Target} x : is_int (to_int x).
Proof.
  unfold is_int, to_int, wrap_signed.
  widths T;
    [ pose proof (Z.mod_pos_bound (x + 2147483648) 4294967296 ltac:(lia))
    | pose proof (Z.mod_pos_bound (x + 9223372036854775808) 18446744073709551616
                    ltac:(lia)) ]; lia.
Qed.

Lemma to_uint64_id x : 0 <= x < 2 ^ 64 -> to_uint64 x = x.
Proof. intros Hx. unfold to_uint64. apply Z.mod_small. lia. Qed.

Lemma byte_of_digit d : 0 <= d <= 9 -> byte_of (digit d) = 48 + d.
Proof.
  intros Hd. unfold byte_of, digit.
  rewrite N_ascii_embedding by lia. lia.
Qed.

Lemma digit_cases d :
  0 <= d <= 9 ->
  d = 0 \/ d = 1 \/ d = 2 \/ d = 3 \/ d = 4 \/ d = 5 \/ d = 6 \/ d = 7
  \/ d = 8 \/ d = 9.
Proof. lia. Qed.

Lemma digit_not_sign d :
  0 <= d <= 9 ->
  Ascii.eqb (digit d) "-" = false /\ Ascii.eqb (digit d) "+" = false.
Proof.
  intros Hd.
  destruct (digit_cases d Hd) as [-> | [-> | [-> | [-> | [-> | [-> | [-> | [-> | [-> | ->]]]]]]]]];
    split; reflexivity.
Qed.

(** The formatting loop always emits at least one byte, and the first
    byte of its output is a digit. *)
Lemma formatBits_keeps_head fuel : forall u a,
  0 <= u -> starts_with_digit a -> starts_with_digit (formatBits fuel u a).
Proof.
  induction fuel as [|fuel IH]; intros u a Hu Ha; simpl; [exact Ha|].
  destruct (Z.ltb_spec u 10) as [Hlt|Hge].
  - exists u, a. split; [lia | reflexivity].
  - apply IH.
    + apply Z.div_pos; lia.
    + exists (u mod 10), a. split; [|reflexivity].
      pose proof (Z.mod_pos_bound u 10). lia.
Qed.

Lemma formatBits_head fuel u a :
  0 <= u -> starts_with_digit (formatBits (S fuel) u a).
Proof.
  intros Hu. simpl.
  destruct (Z.ltb_spec u 10) as [Hlt|Hge].
  - exists u, a. split; [lia | reflexivity].
  - apply formatBits_keeps_head.
    + apply Z.div_pos; lia.
    + exists (u mod 10), a. split; [|reflexivity].
      pose proof (Z.mod_pos_bound u 10). lia.
Qed.

Lemma atoi_loop_step {T : Target} d a n :
  0 <= d <= 9 -> is_int (n * 10 + d) ->
  atoi_loop (String (digit d) a) n = atoi_loop a (n * 10 + d).
Proof.
  intros Hd Hn. simpl.
  rewrite byte_of_digit by exact Hd.
  replace (48 + d - 48) with d by lia.
  rewrite Z.mod_small by lia.
  destruct (Z.ltb_spec 9 d); [lia|].
  now rewrite to_int_id.
Qed.

Lemma parseUint_loop_step maxVal d a n :
  0 <= d <= 9 -> 0 <= n -> n * 10 + d <= maxVal -> maxVal < 2 ^ 64 ->
  parseUint_loop maxVal (String (digit d) a) n = parseUint_loop maxVal a (n * 10 + d).
Proof.
  intros Hd Hn Hle Hmax. simpl.
  rewrite byte_of_digit by exact Hd.
  destruct (Z.leb_spec 48 (48 + d)); [|lia].
  destruct (Z.leb_spec (48 + d) 57); [|lia].
  simpl. rewrite cutoff10_value. rewrite pow2_64 in Hmax.
  destruct (Z.leb_spec 1844674407370955162 n); [lia|].
  replace (48 + d - 48) with d by lia.
  rewrite (to_uint64_id (n * 10)) by (rewrite pow2_64; lia).
  rewrite (to_uint64_id (n * 10 + d)) by (rewrite pow2_64; lia).
  destruct (Z.ltb_spec (n * 10 + d) (n * 10)); [lia|].
  destruct (Z.ltb_spec maxVal (n * 10 + d)); [lia|].
  reflexivity.
Qed.

Lemma div10_bound fuel u :
  0 <= u < 10 ^ Z.of_nat (S fuel) -> 0 <= u / 10 < 10 ^ Z.of_nat fuel.
Proof.
  intros [Hu Hlt].
  rewrite Nat2Z.inj_succ, Z.pow_succ_r in Hlt by lia.
  split; [apply Z.div_pos; lia|].
  apply Z.div_lt_upper_bound; lia.
Qed.

(** Reading back what the formatting loop wrote: the digits of [u] take
    an accumulator that starts at 0 to [u]. *)
Lemma atoi_loop_formatBits {T : Target} fuel : forall u a,
  0 <= u < 10 ^ Z.of_nat fuel -> is_int u ->
  atoi_loop (formatBits fuel u a) 0 = atoi_loop a u.
Proof.
  induction fuel as [|fuel IH]; intros u a Hu Hmax.
  - simpl in *. replace u with 0 by lia. reflexivity.
  - simpl formatBits.
    destruct (Z.ltb_spec u 10) as [Hlt|Hge].
    + rewrite atoi_loop_step; [f_equal; lia | lia | now replace (0 * 10 + u) with u by lia].
    + pose proof (div10_bound fuel u Hu) as Hd.
      pose proof (Z.mod_pos_bound u 10 ltac:(lia)) as Hm.
      pose proof (Z.div_mod u 10 ltac:(lia)) as Hdm.
      rewrite IH; [| lia | clear IH; int_bounds T].
      rewrite atoi_loop_step;
        [f_equal; lia | lia
        | now replace (u / 10 * 10 + u mod 10) with u by lia].
Qed.

Lemma parseUint_loop_formatBits maxVal fuel : forall u a,
  0 <= u < 10 ^ Z.of_nat fuel -> u <= maxVal -> maxVal < 2 ^ 64 ->
  parseUint_loop maxVal (formatBits fuel u a) 0 = parseUint_loop maxVal a u.
Proof.
  induction fuel as [|fuel IH]; intros u a Hu Hle Hmax.
  - simpl in *. replace u with 0 by lia. reflexivity.
  - simpl formatBits.
    destruct (Z.ltb_spec u 10) as [Hlt|Hge].
    + rewrite parseUint_loop_step; [f_equal; lia | lia | lia | lia | lia].
    + pose proof (div10_bound fuel u Hu) as Hd.
      pose proof (Z.mod_pos_bound u 10 ltac:(lia)) as Hm.
      pose proof (Z.div_mod u 10 ltac:(lia)) as Hdm.
      rewrite IH; [| lia | lia | lia].
      rewrite parseUint_loop_step; [f_equal; lia | lia | lia | lia | lia].
Qed.

Lemma small_formatBits i :
  0 <= i < 100 -> small i = formatBits 20 i EmptyString.
Proof.
  intros Hi. unfold small. simpl formatBits.
  destruct (Z.ltb_spec i 10) as [Hlt|Hge]; [reflexivity|].
  destruct (Z.ltb_spec (i / 10) 10) as [Hlt'|Hge']; [reflexivity|].
  exfalso. assert (i / 10 < 10) by (apply Z.div_lt_upper_bound; lia). lia.
Qed.

Lemma length_pos_of_head s :
  starts_with_digit s -> (0 <? Z.of_nat (String.length s)) = true.
Proof.
  intros (d & rest & _ & ->). simpl. apply Z.ltb_lt. lia.
Qed.

(** [Atoi] on a string whose first byte is a digit (hence not a sign). *)
Lemma Atoi_unsigned {T : Target} s :
  starts_with_digit s ->
  Atoi s =
    if Z.of_nat (String.length s) <? fast_path_length then
      match atoi_loop s 0 with
      | (n, None) => (n, None)
      | (_, Some e) => (0, Some e)
      end
    else
      match parseUint_loop (2 ^ intSize - 1) s 0 with
      | (_, Some ErrSyntax) => (0, Some ErrSyntax)
      | (un, _) =>
          if 2 ^ (intSize - 1) <=? un then (to_int (2 ^ (intSize - 1) - 1), Some ErrRange)
          else (to_int (to_int64 un), None)
      end.
Proof.
  intros Hs. pose proof (length_pos_of_head s Hs) as Hlen.
  destruct Hs as (d & rest & Hd & ->).
  destruct (digit_not_sign d Hd) as [Hm Hp].
  unfold Atoi, fast_path_length. rewrite Hlen.
  destruct T as [[|]]; cbn [intSize int_width];
    [ change (32 =? 32) with true; change (32 =? 64) with false
    | change (64 =? 32) with false; change (64 =? 64) with true ];
    cbn [andb orb];
    match goal with |- context [?len <? ?lim] => destruct (len <? lim) end;
    cbn [orb];
    try (rewrite Hm, Hp; cbn [orb andb];
         destruct (atoi_loop (String (digit d) rest) 0) as [n [e|]]; reflexivity);
    unfold ParseInt; rewrite Hm, Hp; cbn [orb negb andb];
    unfold ParseUint; change (0 =? 0) with true; cbv iota;
    cbn [intSize int_width];
    match goal with |- context [parseUint_loop ?m ?str 0] =>
      destruct (parseUint_loop m str 0) as [un [[|]|]] end;
    try reflexivity;
    match goal with |- context [if ?c <=? ?u then _ else _] => destruct (c <=? u) end;
    reflexivity.
Qed.

(** [Atoi] on a minus sign followed by a string that starts with a digit. *)
Lemma Atoi_negative {T : Target} ds :
  starts_with_digit ds ->
  Atoi (String "-" ds) =
    if Z.of_nat (S (String.length ds)) <? fast_path_length then
      match atoi_loop ds 0 with
      | (n, None) => (to_int (- n), None)
      | (_, Some e) => (0, Some e)
      end
    else
      match parseUint_loop (2 ^ intSize - 1) ds 0 with
      | (_, Some ErrSyntax) => (0, Some ErrSyntax)
      | (un, _) =>
          if 2 ^ (intSize - 1) <? un then (to_int (- 2 ^ (intSize - 1)), Some ErrRange)
          else (to_int (to_int64 (- to_int64 un)), None)
      end.
Proof.
  intros (d & rest & Hd & ->).
  unfold Atoi, fast_path_length. cbn [String.length].
  replace (0 <? Z.of_nat (S (S (String.length rest)))) with true
    by (symmetry; apply Z.ltb_lt; lia).
  change (Ascii.eqb "-" "-") with true. change (Ascii.eqb "-" "+") with false.
  destruct T as [[|]]; cbn [intSize int_width];
    [ change (32 =? 32) with true; change (32 =? 64) with false
    | change (64 =? 32) with false; change (64 =? 64) with true ];
    cbn [andb orb];
    match goal with |- context [?len <? ?lim] => destruct (len <? lim) end;
    cbn [orb andb Nat.eqb];
    try (destruct (atoi_loop (String (digit d) rest) 0) as [n [e|]]; reflexivity);
    unfold ParseInt; change (Ascii.eqb "-" "-") with true;
    change (Ascii.eqb "-" "+") with false; cbn [orb negb andb];
    unfold ParseUint; change (0 =? 0) with true; cbv iota;
    cbn [intSize int_width];
    match goal with |- context [parseUint_loop ?m ?str 0] =>
      destruct (parseUint_loop m str 0) as [un [[|]|]] end;
    try reflexivity;
    match goal with |- context [if ?c <? ?u then _ else _] => destruct (c <? u) end;
    reflexivity.
Qed.

Lemma pow10_20 : 10 ^ Z.of_nat 20 = 100000000000000000000.
Proof. reflexivity. Qed.

Lemma Atoi_formatBits_nonneg {T : Target} x :
  0 <= x -> is_int x -> Atoi (formatBits 20 x EmptyString) = (x, None).
Proof.
  intros Hpos Hx.
  rewrite Atoi_unsigned by (apply formatBits_head; lia).
  rewrite atoi_loop_formatBits by (rewrite ?pow10_20; try assumption; int_bounds T).
  rewrite parseUint_loop_formatBits by (rewrite ?pow10_20; int_bounds T).
  cbn [atoi_loop parseUint_loop].
  destruct (Z.of_nat (String.length (formatBits 20 x EmptyString)) <? fast_path_length);
    [reflexivity|].
  destruct (Z.leb_spec (2 ^ (intSize - 1)) x); [int_bounds T|].
  rewrite (to_int64_id x) by (apply is_int_is_int64; exact Hx).
  rewrite to_int_id by exact Hx. reflexivity.
Qed.

Lemma Atoi_formatBits_neg {T : Target} u :
  1 <= u <= 2 ^ (intSize - 1) ->
  Atoi (String "-" (formatBits 20 u EmptyString)) = (- u, None).
Proof.
  intros Hu.
  destruct (Z.eq_dec u (2 ^ (intSize - 1))) as [-> | Hne];
    [destruct T as [[|]]; vm_compute; reflexivity|].
  assert (Hint : is_int u) by int_bounds T.
  rewrite Atoi_negative by (apply formatBits_head; lia).
  rewrite atoi_loop_formatBits by (rewrite ?pow10_20; try assumption; int_bounds T).
  rewrite parseUint_loop_formatBits by (rewrite ?pow10_20; int_bounds T).
  cbn [atoi_loop parseUint_loop].
  destruct (Z.of_nat (S (String.length (formatBits 20 u EmptyString))) <? fast_path_length).
  - rewrite to_int_id by int_bounds T. reflexivity.
  - destruct (Z.ltb_spec (2 ^ (intSize - 1)) u); [lia|].
    rewrite (to_int64_id u) by (apply is_int_is_int64; exact Hint).
    rewrite (to_int64_id (- u)) by (apply is_int_is_int64; int_bounds T).
    rewrite to_int_id by int_bounds T. reflexivity.
Qed.

(** Reading back a formatted integer returns it: [Atoi] inverts
    [FormatInt] on every value of the target's [int]. *)
Lemma Atoi_FormatInt {T : Target} x : is_int x -> Atoi (FormatInt x) = (x, None).
Proof.
  intros Hx. pose proof (is_int_is_int64 x Hx) as Hx64. unfold FormatInt.
  destruct (Z.leb_spec 0 x) as [Hpos|Hneg]; cbn [andb].
  - destruct (Z.ltb_spec x 100) as [Hsmall|Hbig].
    + rewrite small_formatBits by lia.
      now apply Atoi_formatBits_nonneg.
    + destruct (Z.ltb_spec x 0); [lia|].
      rewrite to_uint64_id by (constants; lia).
      now apply Atoi_formatBits_nonneg.
  - destruct (Z.ltb_spec x 0); [|lia].
    assert (Hu : to_uint64 (- to_uint64 x) = - x).
    { unfold to_uint64. rewrite pow2_64. constants.
      replace (x mod 18446744073709551616) with (x + 18446744073709551616).
      2:{ apply Z.mod_unique with (q := -1); lia. }
      symmetry. apply Z.mod_unique with (q := -1); lia. }
    rewrite Hu.
    replace x with (- (- x)) at 2 by lia.
    apply Atoi_formatBits_neg. clear Hx64 Hu. int_bounds T.
Qed.

Lemma Atoi_Itoa {T : Target} x : is_int x -> Atoi (Itoa x) = (x, None).
Proof.
  intros Hx. unfold Itoa. rewrite to_int64_id by (apply is_int_is_int64; exact Hx).
  now apply Atoi_FormatInt.
Qed.

(** [Itoa] does not depend on the target, and it separates the 64-bit
    values. *)
Lemma Itoa_inj x y : is_int64 x -> is_int64 y -> Itoa x = Itoa y -> x = y.
Proof.
  intros Hx Hy Heq.
  pose proof (Atoi_Itoa (T := GOARCH_amd64) x Hx) as Ex.
  pose proof (Atoi_Itoa (T := GOARCH_amd64) y Hy) as Ey.
  rewrite Heq in Ex. congruence.
Qed.

Lemma byte_of_range c : 0 <= byte_of c < 256.
Proof.
  unfold byte_of. pose proof (N_ascii_bounded c). lia.
Qed.

Lemma atoi_digit_test c :
  (9 <? (byte_of c - 48) mod 256) = negb (is_digit c).
Proof.
  unfold is_digit. pose proof (byte_of_range c) as Hb.
  pose proof (Z.mod_pos_bound (byte_of c - 48) 256 ltac:(lia)) as Hm.
  pose proof (Z.div_mod (byte_of c - 48) 256 ltac:(lia)) as Hdm.
  destruct (Z.ltb_spec 9 ((byte_of c - 48) mod 256));
    destruct (Z.leb_spec 48 (byte_of c));
    destruct (Z.leb_spec (byte_of c) 57); cbn; try reflexivity; lia.
Qed.

(** The fast loop stops only with the syntax error, and succeeds only on
    digits. *)
Lemma atoi_loop_error {T : Target} s : forall n v e,
  atoi_loop s n = (v, Some e) -> v = 0 /\ e = ErrSyntax /\ all_digits s = false.
Proof.
  induction s as [|c r IH]; intros n v e H; cbn [atoi_loop all_digits] in *.
  - discriminate.
  - rewrite atoi_digit_test in H. destruct (is_digit c); cbn [negb andb] in *.
    + eapply IH; eassumption.
    + inversion H; subst. auto.
Qed.


Lemma parseUint_loop_syntax maxVal s : forall n v,
  parseUint_loop maxVal s n = (v, Some ErrSyntax) -> v = 0 /\ all_digits s = false.
Proof.
  induction s as [|c r IH]; intros n v H; cbn [parseUint_loop all_digits] in *.
  - discriminate.
  - fold (is_digit c) in H. destruct (is_digit c); cbn [andb].
    + destruct (cutoff10 <=? n); [discriminate|].
      destruct ((to_uint64 (to_uint64 (n * 10) + (byte_of c - 48)) <? to_uint64 (n * 10))
                || (maxVal <? to_uint64 (to_uint64 (n * 10) + (byte_of c - 48))));
        [discriminate|].
      eapply IH; eassumption.
    + inversion H; auto.
Qed.



Lemma ParseUint_syntax {T : Target} s v : ParseUint s 0 = (v, Some ErrSyntax) -> v = 0.
Proof.
  destruct s as [|c r]; [now inversion 1|].
  unfold ParseUint. intros H. eapply parseUint_loop_syntax; eassumption.
Qed.








(** On its fast path (below 10 bytes where [int] has 32 bits, below 19
    where it has 64) [Atoi] never reports a range error. *)
Lemma Atoi_short_no_range {T : Target} s :
  Z.of_nat (String.length s) < fast_path_length -> snd (Atoi s) <> Some ErrRange.
Proof.
  intros Hlen. unfold Atoi, fast_path_length in *.
  destruct s as [|c0 rest]; [destruct T as [[|]]; cbn; discriminate|].
  replace (0 <? Z.of_nat (String.length (String c0 rest))) with true
    by (symmetry; apply Z.ltb_lt; cbn [String.length]; lia).
  destruct T as [[|]]; cbn [intSize int_width] in *;
    [ change (32 =? 32) with true; change (32 =? 64) with false;
      replace (Z.of_nat (String.length (String c0 rest)) <? 10) with true
        by (symmetry; apply Z.ltb_lt; lia)
    | change (64 =? 32) with false; change (64 =? 64) with true;
      replace (Z.of_nat (String.length (String c0 rest)) <? 19) with true
        by (symmetry; apply Z.ltb_lt; lia) ];
    cbn [andb orb];
    (destruct (_ && _); [cbn; discriminate|]);
    (destruct (atoi_loop _ 0) as [n [e|]] eqn:HL; cbn [snd]; [|discriminate]);
    apply atoi_loop_error in HL; destruct HL as (_ & -> & _); discriminate.
Qed.


(*END strconv_facts*)
End strconv_facts.

(* ===================================================================== *)
(** * Properties of the collection operations *)
(* ===================================================================== *)

Module mgo_facts.
Import store_spec.

Lemma matches_key owner repoID d :
  mgo.matches (<["repoId" := repoID]> (<["userId" := owner]> ∅)) d = keyed owner repoID d.
Proof.
  unfold mgo.matches, keyed. apply bool_decide_ext.
  rewrite map_Forall_insert by (rewrite lookup_insert_ne by done; apply lookup_empty).
  rewrite map_Forall_insert by apply lookup_empty.
  unfold has_key. split.
  - intros (H1 & H2 & _). split; assumption.
  - intros (H1 & H2). repeat split; try assumption. apply map_Forall_empty.
Qed.

Lemma matches_owner owner d :
  mgo.matches (<["userId" := owner]> ∅) d = owned_by owner d.
Proof.
  unfold mgo.matches, owned_by. apply bool_decide_ext.
  rewrite map_Forall_insert by apply lookup_empty.
  split; [tauto|]. intros H. split; [exact H | apply map_Forall_empty].
Qed.

Section first_match.
Variable p : gmap string string -> bool.

Lemma replace_first_None d' l :
  mgo.replace_first p d' l = None <-> List.filter p l = [].
Proof.
  induction l as [|d r IH]; cbn [mgo.replace_first List.filter]; [tauto|].
  destruct (p d); [split; discriminate|].
  destruct (mgo.replace_first p d' r); [|tauto].
  split; [discriminate|]. intros H. apply IH in H. discriminate.
Qed.

Lemma replace_first_filter d' l l' :
  mgo.replace_first p d' l = Some l' -> p d' = true ->
  List.filter p l' = d' :: tl (List.filter p l).
Proof.
  intros H Hd'. revert l' H.
  induction l as [|d r IH]; intros l' H; cbn [mgo.replace_first List.filter] in *;
    [discriminate|].
  destruct (p d) eqn:Hpd.
  - inversion H; subst. cbn [List.filter tl]. now rewrite Hd'.
  - destruct (mgo.replace_first p d' r) as [r'|]; [|discriminate].
    inversion H; subst. cbn [List.filter]. rewrite Hpd. now apply IH.
Qed.

Lemma remove_first_None l :
  mgo.remove_first p l = None <-> List.filter p l = [].
Proof.
  induction l as [|d r IH]; cbn [mgo.remove_first List.filter]; [tauto|].
  destruct (p d); [split; discriminate|].
  destruct (mgo.remove_first p r); [|tauto].
  split; [discriminate|]. intros H. apply IH in H. discriminate.
Qed.

Lemma remove_first_filter l l' :
  mgo.remove_first p l = Some l' -> List.filter p l' = tl (List.filter p l).
Proof.
  revert l'.
  induction l as [|d r IH]; intros l' H; cbn [mgo.remove_first List.filter] in *;
    [discriminate|].
  destruct (p d) eqn:Hpd.
  - inversion H; subst. reflexivity.
  - destruct (mgo.remove_first p r) as [r'|]; [|discriminate].
    inversion H; subst. cbn [List.filter]. rewrite Hpd. now apply IH.
Qed.

(** A predicate [q] that holds of no document [p] selects is blind to
    what the first-match operations do. *)
Variable q : gmap string string -> bool.
Hypothesis disjoint : forall d, p d = true -> q d = false.

Lemma replace_first_other d' l l' :
  mgo.replace_first p d' l = Some l' -> q d' = false ->
  List.filter q l' = List.filter q l.
Proof.
  intros H Hd'. revert l' H.
  induction l as [|d r IH]; intros l' H; cbn [mgo.replace_first List.filter] in *;
    [discriminate|].
  destruct (p d) eqn:Hpd.
  - inversion H; subst. cbn [List.filter]. now rewrite Hd', (disjoint d Hpd).
  - destruct (mgo.replace_first p d' r) as [r'|]; [|discriminate].
    inversion H; subst. cbn [List.filter]. now rewrite (IH r' eq_refl).
Qed.

Lemma remove_first_other l l' :
  mgo.remove_first p l = Some l' -> List.filter q l' = List.filter q l.
Proof.
  revert l'.
  induction l as [|d r IH]; intros l' H; cbn [mgo.remove_first List.filter] in *;
    [discriminate|].
  destruct (p d) eqn:Hpd.
  - inversion H; subst. now rewrite (disjoint d Hpd).
  - destruct (mgo.remove_first p r) as [r'|]; [|discriminate].
    inversion H; subst. cbn [List.filter]. now rewrite (IH r' eq_refl).
Qed.

End first_match.

Lemma filter_matches_key owner repoID l :
  List.filter (mgo.matches (<["repoId" := repoID]> (<["userId" := owner]> ∅))) l
  = records_for owner repoID l.
Proof. apply List.filter_ext. intros d. apply matches_key. Qed.

Lemma to_bson_keyed k : keyed (core.UserID k) (core.RepoID k) (core.to_bson k) = true.
Proof.
  apply bool_decide_eq_true. split; unfold core.to_bson.
  - apply lookup_insert_eq.
  - rewrite lookup_insert_ne by done. apply lookup_insert_eq.
Qed.

Lemma of_to_bson k : core.of_bson (core.to_bson k) = k.
Proof. destruct k. reflexivity. Qed.

End mgo_facts.

(* ===================================================================== *)
(** * Properties of the MongoDB repository *)
(* ===================================================================== *)

Module storage_facts.
Import core store_spec mgo_facts.

Lemma with_own_session r : storage.with_session (storage.session r) r = r.
Proof. destruct r. reflexivity. Qed.

(** What [reachable] says of the database. *)
Lemma reachable_inv r :
  reachable r ->
  mgo.fault (storage.session r) = None /\ mgo.refused (storage.session r) = [].
Proof.
  unfold reachable, healthy.
  destruct (mgo.fault (storage.session r)); [discriminate|].
  destruct (mgo.refused (storage.session r)); [auto | discriminate].
Qed.

Lemma reachable_intro r :
  mgo.fault (storage.session r) = None -> mgo.refused (storage.session r) = [] ->
  reachable r.
Proof. unfold reachable, healthy. now intros -> ->. Qed.

Lemma reachable_fault r : reachable r -> mgo.fault (storage.session r) = None.
Proof. intros Hr. apply (reachable_inv r Hr). Qed.

Lemma reachable_refusal r d : reachable r -> mgo.refusal d (storage.session r) = None.
Proof.
  intros Hr. unfold mgo.refusal. now rewrite (proj2 (reachable_inv r Hr)).
Qed.

(** An upsert of one record the database takes succeeds; under the
    record's key the store then holds the new document in the place of the
    first one it held, or as its only one. *)
Lemma Create_one_accepted k r :
  mgo.fault (storage.session r) = None ->
  mgo.refusal (to_bson k) (storage.session r) = None ->
  exists r',
    storage.Create [k] r = (None, r')
    /\ mgo.fault (storage.session r') = None
    /\ mgo.refused (storage.session r') = mgo.refused (storage.session r)
    /\ storage.logger r' = storage.logger r
    /\ records_for (UserID k) (RepoID k) (stored r')
       = to_bson k :: tl (records_for (UserID k) (RepoID k) (stored r)).
Proof.
  unfold stored. intros Hf Hacc.
  cbn [storage.Create]. unfold mgo.Upsert. rewrite Hf, Hacc.
  destruct (mgo.replace_first _ (to_bson k) (mgo.documents (storage.session r)))
    as [l|] eqn:Hrep.
  - eexists. split; [reflexivity|]. cbn. repeat split.
    apply replace_first_filter in Hrep.
    + rewrite !filter_matches_key in Hrep. exact Hrep.
    + rewrite matches_key. apply to_bson_keyed.
  - eexists. split; [reflexivity|]. cbn. repeat split.
    apply replace_first_None in Hrep. rewrite filter_matches_key in Hrep.
    unfold records_for in *. rewrite List.filter_app, Hrep. cbn.
    now rewrite to_bson_keyed.
Qed.

(** An upsert the database refuses, or one it cannot answer, changes
    nothing and returns the error. *)
Lemma Create_one_refused k r e :
  mgo.fault (storage.session r) = None ->
  mgo.refusal (to_bson k) (storage.session r) = Some e ->
  forall rest, storage.Create (k :: rest) r = (Some e, r).
Proof.
  intros Hf Href rest. cbn [storage.Create]. unfold mgo.Upsert.
  rewrite Hf, Href. now rewrite with_own_session.
Qed.

Lemma Create_one_faulty k r e :
  mgo.fault (storage.session r) = Some e ->
  forall rest, storage.Create (k :: rest) r = (Some e, r).
Proof.
  intros Hf rest. cbn [storage.Create]. unfold mgo.Upsert.
  rewrite Hf. now rewrite with_own_session.
Qed.

(** On a reachable store every upsert of one record succeeds. *)
Lemma Create_one k r :
  reachable r ->
  exists r',
    storage.Create [k] r = (None, r') /\ reachable r'
    /\ storage.logger r' = storage.logger r
    /\ records_for (UserID k) (RepoID k) (stored r')
       = to_bson k :: tl (records_for (UserID k) (RepoID k) (stored r)).
Proof.
  intros Hr. destruct (reachable_inv r Hr) as [Hf Hrf].
  destruct (Create_one_accepted k r Hf (reachable_refusal r _ Hr))
    as (r' & HC & Hf' & Hrf' & Hlog & Hrec).
  exists r'. split; [exact HC|]. split; [|split; assumption].
  apply reachable_intro; congruence.
Qed.

(** Whatever the state of the database, an upsert leaves alone every
    document that a predicate disjoint from the record's key selects. *)
Lemma Create_one_other k r (q : gmap string string -> bool) :
  (forall d, keyed (UserID k) (RepoID k) d = true -> q d = false) ->
  List.filter q (stored (snd (storage.Create [k] r))) = List.filter q (stored r).
Proof.
  intros Hdisj. unfold stored.
  cbn [storage.Create]. unfold mgo.Upsert.
  destruct (mgo.fault (storage.session r)); [reflexivity|].
  destruct (mgo.refusal (to_bson k) (storage.session r)); [reflexivity|].
  destruct (mgo.replace_first _ (to_bson k) (mgo.documents (storage.session r)))
    as [l|] eqn:Hrep; cbn.
  - eapply replace_first_other; [|exact Hrep|].
    + intros d Hd. rewrite matches_key in Hd. now apply Hdisj.
    + apply Hdisj, to_bson_keyed.
  - rewrite List.filter_app. cbn. rewrite (Hdisj _ (to_bson_keyed k)).
    apply app_nil_r.
Qed.

(** Deleting under a key the store does not hold: the driver's not-found
    error comes back and nothing changes. *)
Lemma Delete_absent_answered k r :
  mgo.fault (storage.session r) = None ->
  records_for (UserID k) (RepoID k) (stored r) = [] ->
  storage.Delete k r = (Some ErrNotFound, r).
Proof.
  unfold stored, storage.Delete, mgo.Remove. intros Hr Habs.
  rewrite Hr. rewrite <- filter_matches_key in Habs.
  apply remove_first_None in Habs. rewrite Habs.
  now rewrite with_own_session.
Qed.

Lemma Delete_absent k r :
  reachable r -> records_for (UserID k) (RepoID k) (stored r) = [] ->
  storage.Delete k r = (Some ErrNotFound, r).
Proof. intros Hr. apply Delete_absent_answered, reachable_fault, Hr. Qed.

(** Deleting under a key the store holds removes the first record kept
    under that key. *)
Lemma Delete_present_answered k r :
  mgo.fault (storage.session r) = None ->
  records_for (UserID k) (RepoID k) (stored r) <> [] ->
  exists r',
    storage.Delete k r = (None, r')
    /\ mgo.fault (storage.session r') = None
    /\ mgo.refused (storage.session r') = mgo.refused (storage.session r)
    /\ records_for (UserID k) (RepoID k) (stored r')
       = tl (records_for (UserID k) (RepoID k) (stored r)).
Proof.
  unfold stored, storage.Delete, mgo.Remove. intros Hr Hpres.
  rewrite Hr.
  destruct (mgo.remove_first _ (mgo.documents (storage.session r))) as [l|] eqn:Hrem.
  - eexists. split; [reflexivity|]. cbn. repeat split.
    apply remove_first_filter in Hrem. now rewrite !filter_matches_key in Hrem.
  - apply remove_first_None in Hrem. rewrite filter_matches_key in Hrem.
    contradiction.
Qed.

Lemma Delete_present k r :
  reachable r -> records_for (UserID k) (RepoID k) (stored r) <> [] ->
  exists r',
    storage.Delete k r = (None, r') /\ reachable r'
    /\ records_for (UserID k) (RepoID k) (stored r')
       = tl (records_for (UserID k) (RepoID k) (stored r)).
Proof.
  intros Hr Hpres. destruct (reachable_inv r Hr) as [Hf Hrf].
  destruct (Delete_present_answered k r Hf Hpres) as (r' & HD & Hf' & Hrf' & Hrec).
  exists r'. split; [exact HD|]. split; [|exact Hrec].
  apply reachable_intro; congruence.
Qed.

Lemma Delete_other k r (q : gmap string string -> bool) :
  (forall d, keyed (UserID k) (RepoID k) d = true -> q d = false) ->
  List.filter q (stored (snd (storage.Delete k r))) = List.filter q (stored r).
Proof.
  intros Hdisj. unfold stored, storage.Delete, mgo.Remove.
  destruct (mgo.fault (storage.session r)); [reflexivity|].
  destruct (mgo.remove_first _ (mgo.documents (storage.session r))) as [l|] eqn:Hrem;
    cbn; [|reflexivity].
  eapply remove_first_other; [|exact Hrem].
  intros d Hd. rewrite matches_key in Hd. now apply Hdisj.
Qed.

Lemma FindAll_stored sel r : stored (snd (storage.FindAll sel r)) = stored r.
Proof.
  unfold storage.FindAll, stored. destruct (mgo.Find_All sel (storage.session r)); reflexivity.
Qed.

End storage_facts.

(* ===================================================================== *)
(** * The bookmark service and its record store *)
(* ===================================================================== *)

Module kudo_facts.
Import core store_spec kudo_spec mgo_facts storage_facts.
Local Open Scope Z_scope.

Lemma githubRepoToKudo_key s g :
  UserID (kudo.githubRepoToKudo s g) = kudo.userId s
  /\ RepoID (kudo.githubRepoToKudo s g) = strconv.Itoa (strconv.to_int (kudo.RepoID g)).
Proof. split; reflexivity. Qed.

(** C1, as the code has it: the identifier coercion done by
    [githubRepoToKudo] is a function of the numeric identifier alone, and
    it is lossless on the identifiers that fit the [int] of the build
    target, which are all 64-bit identifiers where [int] has 64 bits:
    [Atoi] reads the identifier back from the stored string, so distinct
    identifiers give distinct strings. *)
Theorem githubRepoToKudo_id_lossless {T : strconv.Target} (s s' : kudo.Service)
    (a b : kudo.GitHubRepo) :
  strconv.is_int (kudo.RepoID a) -> strconv.is_int (kudo.RepoID b) ->
  strconv.Atoi (RepoID (kudo.githubRepoToKudo s a)) = (kudo.RepoID a, None)
  /\ (RepoID (kudo.githubRepoToKudo s a) = RepoID (kudo.githubRepoToKudo s' b)
      <-> kudo.RepoID a = kudo.RepoID b).
Proof.
  intros Ha Hb. cbn [kudo.githubRepoToKudo RepoID].
  rewrite !strconv_facts.to_int_id by assumption.
  split; [now apply strconv_facts.Atoi_Itoa|].
  split; [|now intros ->].
  apply strconv_facts.Itoa_inj; now apply strconv_facts.is_int_is_int64.
Qed.

Lemma githubRepoToKudo_id_lossless_witness :
  strconv.Atoi (RepoID (kudo.githubRepoToKudo scenario.u1 scenario.max_repo))
  = (9223372036854775807, None)
  /\ (RepoID (kudo.githubRepoToKudo scenario.u1 scenario.max_repo)
      = RepoID (kudo.githubRepoToKudo scenario.u2 scenario.baz)
      <-> 9223372036854775807 = 7).
Proof.
  apply (githubRepoToKudo_id_lossless (T := strconv.GOARCH_amd64)
           scenario.u1 scenario.u2 scenario.max_repo scenario.baz);
    vm_compute; split; discriminate.
Defined.

(** C1 fails as stated: where [int] has 32 bits, the 64-bit identifiers
    4294967297 and 1 are both stored as "1", and what [Atoi] reads back
    from that string is 1. *)
Lemma githubRepoToKudo_narrows_on_386 :
  strconv.is_int64 (kudo.RepoID scenario.wide_repo)
  /\ strconv.is_int64 (kudo.RepoID scenario.one_repo)
  /\ kudo.RepoID scenario.wide_repo <> kudo.RepoID scenario.one_repo
  /\ RepoID (kudo.githubRepoToKudo (T := strconv.GOARCH_386) scenario.u1 scenario.wide_repo)
     = RepoID (kudo.githubRepoToKudo (T := strconv.GOARCH_386) scenario.u1 scenario.one_repo)
  /\ strconv.Atoi (T := strconv.GOARCH_386)
       (RepoID (kudo.githubRepoToKudo (T := strconv.GOARCH_386) scenario.u1
                  scenario.wide_repo))
     = (1, None).
Proof.
  split; [vm_compute; split; discriminate|].
  split; [vm_compute; split; discriminate|].
  split; [discriminate|]. split; reflexivity.
Qed.

(** C3, as the code has it: deleting under a key that a reachable store
    does not hold leaves the store as it was and returns the driver's
    not-found error, which [RemoveKudo] hands to its caller. *)
Theorem RemoveKudo_absent_key (s : kudo.Service) (g : kudo.GitHubRepo)
    (r : storage.MongoRepository) :
  reachable r ->
  records_for (kudo.userId s) (strconv.Itoa (strconv.to_int (kudo.RepoID g))) (stored r) = [] ->
  storage.Delete (kudo.githubRepoToKudo s g) r = (Some ErrNotFound, r)
  /\ kudo.RemoveKudo s g r = (inr ErrNotFound, r).
Proof.
  intros Hr Habs.
  assert (HD : storage.Delete (kudo.githubRepoToKudo s g) r = (Some ErrNotFound, r))
    by (apply Delete_absent; assumption).
  split; [exact HD|].
  unfold kudo.RemoveKudo. cbn [Delete storage.MongoRepository_Repository].
  now rewrite HD.
Qed.

Lemma RemoveKudo_absent_key_witness :
  storage.Delete (kudo.githubRepoToKudo scenario.u1 scenario.foo_bar) scenario.empty_store
    = (Some ErrNotFound, scenario.empty_store)
  /\ kudo.RemoveKudo scenario.u1 scenario.foo_bar scenario.empty_store
    = (inr ErrNotFound, scenario.empty_store).
Proof.
  apply (RemoveKudo_absent_key scenario.u1 scenario.foo_bar scenario.empty_store);
    reflexivity.
Defined.

(** C3 fails as stated: on the empty, reachable store the key ("u1", "42")
    is absent, yet both the store's delete and [RemoveKudo] report an
    error instead of succeeding. *)
Lemma RemoveKudo_absent_key_not_success :
  reachable scenario.empty_store
  /\ records_for "u1" "42" (stored scenario.empty_store) = []
  /\ fst (storage.Delete (kudo.githubRepoToKudo scenario.u1 scenario.foo_bar)
            scenario.empty_store) <> None
  /\ fst (kudo.RemoveKudo scenario.u1 scenario.foo_bar scenario.empty_store)
     = inr ErrNotFound.
Proof. repeat split. vm_compute. discriminate. Qed.

Lemma CreateKudoFor_reachable s g r :
  reachable r ->
  exists r',
    kudo.CreateKudoFor s g r = (inl (kudo.githubRepoToKudo s g), r')
    /\ reachable r'
    /\ records_for (kudo.userId s) (strconv.Itoa (strconv.to_int (kudo.RepoID g))) (stored r')
       = to_bson (kudo.githubRepoToKudo s g)
         :: tl (records_for (kudo.userId s)
                  (strconv.Itoa (strconv.to_int (kudo.RepoID g))) (stored r)).
Proof.
  intros Hr.
  destruct (Create_one (kudo.githubRepoToKudo s g) r Hr) as (r' & HC & Hr' & _ & Hrec).
  exists r'. unfold kudo.CreateKudoFor.
  cbn [Create storage.MongoRepository_Repository]. rewrite HC.
  repeat split; assumption.
Qed.

(** Two keys that differ select disjoint sets of documents. *)
Lemma keyed_disjoint o1 r1 o2 r2 d :
  (o1, r1) <> (o2, r2) -> keyed o1 r1 d = true -> keyed o2 r2 d = false.
Proof.
  intros Hne H. apply bool_decide_eq_true in H. apply bool_decide_eq_false.
  destruct H as [Ho Hr]. intros [Ho' Hr']. congruence.
Qed.

Lemma keyed_owned o rid d : keyed o rid d = true -> owned_by o d = true.
Proof.
  intros H. apply bool_decide_eq_true in H. apply bool_decide_eq_true. apply H.
Qed.

Lemma owned_by_disjoint o1 o2 d : o1 <> o2 -> owned_by o1 d = true -> owned_by o2 d = false.
Proof.
  intros Hne H. apply bool_decide_eq_true in H. apply bool_decide_eq_false. congruence.
Qed.

(** Every call made through a service bound to [A] leaves alone the
    documents selected by a predicate that holds of no document of [A]. *)
Lemma run_call_other A (q : gmap string string -> bool) c (r : storage.MongoRepository) :
  (forall d, owned_by A d = true -> q d = false) ->
  List.filter q (stored (snd (run_call (kudo.NewService A) c r))) = List.filter q (stored r).
Proof.
  intros Hdisj.
  assert (Hk : forall g d,
    keyed (UserID (kudo.githubRepoToKudo (kudo.NewService A) g))
          (RepoID (kudo.githubRepoToKudo (kudo.NewService A) g)) d = true -> q d = false)
    by (intros g d Hd; apply Hdisj; exact (keyed_owned _ _ _ Hd)).
  destruct c as [|g|g|g]; cbn [run_call].
  - unfold kudo.GetKudos. cbn [FindAll storage.MongoRepository_Repository].
    pose proof (FindAll_stored (<["userId" := A]> ∅) r) as HF.
    destruct (storage.FindAll _ r) as [res r']. cbn in *. now rewrite HF.
  - unfold kudo.CreateKudoFor. cbn [Create storage.MongoRepository_Repository].
    pose proof (Create_one_other (kudo.githubRepoToKudo (kudo.NewService A) g) r q (Hk g)) as HC.
    destruct (storage.Create _ r) as [[e|] r']; exact HC.
  - unfold kudo.UpdateKudoWith. cbn [Create storage.MongoRepository_Repository].
    pose proof (Create_one_other (kudo.githubRepoToKudo (kudo.NewService A) g) r q (Hk g)) as HC.
    destruct (storage.Create _ r) as [[e|] r']; exact HC.
  - unfold kudo.RemoveKudo. cbn [Delete storage.MongoRepository_Repository].
    pose proof (Delete_other (kudo.githubRepoToKudo (kudo.NewService A) g) r q (Hk g)) as HD.
    destruct (storage.Delete _ r) as [[e|] r']; exact HD.
Qed.






(** C7: [UpdateKudoWith] maps and upserts exactly as [CreateKudoFor] does:
    on every input and every state of every repository implementation the
    two return the same result and leave the same state. *)
Theorem UpdateKudoWith_is_CreateKudoFor {S : Type} `{!Repository S}
    (s : kudo.Service) (githubRepo : kudo.GitHubRepo) (repo : S) :
  kudo.UpdateKudoWith s githubRepo repo = kudo.CreateKudoFor s githubRepo repo.
Proof. reflexivity. Qed.

(** C8: the store's lookup misses the record it is asked for.  The store
    holds the record of owner "u1" under the repository identifier "42";
    [Find "42"] puts the owner of its zero-valued local into the
    selector, so it asks for the key ("", "42"), answers not-found and
    logs that error. *)
Lemma Find_misses_stored_key :
  List.map of_bson (records_for "u1" "42" (stored scenario.store_u1_foo_bar))
    = [kudo.githubRepoToKudo scenario.u1 scenario.foo_bar]
  /\ storage.Find "42" scenario.store_u1_foo_bar
     = (inr ErrNotFound, storage.Printf_error ErrNotFound scenario.store_u1_foo_bar).
Proof. split; reflexivity. Qed.

(** ** The key invariant of the data model *)

Lemma Create_one_unique k r :
  unique_keys (stored r) -> unique_keys (stored (snd (storage.Create [k] r))).
Proof.
  intros Hu o rid.
  destruct (decide ((UserID k, RepoID k) = (o, rid))) as [Heq|Hne].
  - inversion Heq; subst o rid.
    destruct (mgo.fault (storage.session r)) as [e|] eqn:Hf;
      [rewrite (Create_one_faulty k r e Hf); apply Hu|].
    destruct (mgo.refusal (to_bson k) (storage.session r)) as [e|] eqn:Hacc;
      [rewrite (Create_one_refused k r e Hf Hacc); apply Hu|].
    destruct (Create_one_accepted k r Hf Hacc) as (r' & HC & _ & _ & _ & Hrec).
    rewrite HC. cbn [snd]. rewrite Hrec. specialize (Hu (UserID k) (RepoID k)).
    destruct (records_for _ _ (stored r)) as [|d0 [|d1 rest]]; cbn in *; lia.
  - unfold records_for. rewrite Create_one_other; [apply Hu|].
    intros d. now apply keyed_disjoint.
Qed.

Lemma Delete_unique k r :
  unique_keys (stored r) -> unique_keys (stored (snd (storage.Delete k r))).
Proof.
  intros Hu o rid.
  destruct (decide ((UserID k, RepoID k) = (o, rid))) as [Heq|Hne].
  - inversion Heq; subst o rid. specialize (Hu (UserID k) (RepoID k)).
    destruct (mgo.fault (storage.session r)) as [e|] eqn:Hf.
    + unfold storage.Delete, mgo.Remove. rewrite Hf, with_own_session. exact Hu.
    + destruct (records_for (UserID k) (RepoID k) (stored r)) as [|d0 rest] eqn:Hrec.
      * rewrite Delete_absent_answered by assumption. cbn [snd]. rewrite Hrec. cbn. lia.
      * destruct (Delete_present_answered k r Hf) as (r' & HD & _ & _ & Hrec');
          [rewrite Hrec; discriminate|].
        rewrite HD. cbn [snd]. rewrite Hrec', Hrec. cbn in *. lia.
  - unfold records_for. rewrite Delete_other; [apply Hu|].
    intros d. now apply keyed_disjoint.
Qed.

Lemma run_call_unique s c (r : storage.MongoRepository) :
  unique_keys (stored r) -> unique_keys (stored (snd (run_call s c r))).
Proof.
  intros Hu. destruct c as [|g|g|g]; cbn [run_call].
  - unfold kudo.GetKudos. cbn [FindAll storage.MongoRepository_Repository].
    pose proof (FindAll_stored (<["userId" := kudo.userId s]> ∅) r) as HF.
    destruct (storage.FindAll _ r) as [res r']. cbn in *. now rewrite HF.
  - unfold kudo.CreateKudoFor. cbn [Create storage.MongoRepository_Repository].
    pose proof (Create_one_unique (kudo.githubRepoToKudo s g) r Hu) as HC.
    destruct (storage.Create _ r) as [[e|] r']; exact HC.
  - unfold kudo.UpdateKudoWith. cbn [Create storage.MongoRepository_Repository].
    pose proof (Create_one_unique (kudo.githubRepoToKudo s g) r Hu) as HC.
    destruct (storage.Create _ r) as [[e|] r']; exact HC.
  - unfold kudo.RemoveKudo. cbn [Delete storage.MongoRepository_Repository].
    pose proof (Delete_unique (kudo.githubRepoToKudo s g) r Hu) as HD.
    destruct (storage.Delete _ r) as [[e|] r']; exact HD.
Qed.

(** Every store the service produces from an empty collection keeps at
    most one record per (owner, repository) key. *)
Lemma produced_unique_keys r : history.produced r -> unique_keys (stored r).
Proof.
  induction 1 as [lg f rf | f r _ IH | rf r _ IH | s c r _ IH].
  - intros o rid. cbn. lia.
  - exact IH.
  - exact IH.
  - now apply run_call_unique.
Qed.





End kudo_facts.

(* ===================================================================== *)
(** * The authentication gate and the HTTP surface *)
(* ===================================================================== *)

Module http_facts.
Import core store_spec strconv_spec http_spec.
Local Open Scope Z_scope.

Section surface.
Context `{!jwtverifier.Verifier} `{!json.Decoder}.
#[local] Abbreviation World := (http.World storage.MongoRepository).

(** The two outer middlewares only prepare the world the gate runs in. *)
Lemma Router_at_gate (r : http.Request) (wd : World) :
  http.Router r wd = http.OktaAuth (http.JSONApi http.router) r (at_gate r wd).
Proof.
  unfold http.Router, http.UseMiddlewares, http.AccsessLog, http.Cors, at_gate,
    cors_headers, http.on_w. cbn [http.w http.repo http.stdlog].
  destruct (http.Header r !! "Origin") as [[|origin l]|]; try reflexivity.
  destruct (String.eqb origin EmptyString); reflexivity.
Qed.

Lemma cors_headers_fresh (r : http.Request) :
  http.wroteHeader (cors_headers r http.newResponseWriter) = false
  /\ http.header (cors_headers r http.newResponseWriter) !! "Content-Type" = None
  /\ http.body (cors_headers r http.newResponseWriter) = [].
Proof.
  unfold cors_headers.
  destruct (http.Header r !! "Origin") as [[|origin l]|]; try (repeat split; reflexivity).
  destruct (String.eqb origin EmptyString); repeat split; reflexivity.
Qed.

(** A panic of [validateAccessToken] aborts the whole request. *)
Lemma serve_gate_panics (r : http.Request) (s : storage.MongoRepository) msg :
  http.validateAccessToken (authorization r) = Panicked msg ->
  http.serve r s = Panicked msg.
Proof.
  intros Hv. unfold http.serve. rewrite Router_at_gate.
  unfold http.OktaAuth. fold (authorization r). now rewrite Hv.
Qed.

(** C2 fails on the code: for every route, body and store, a request with
    no [Authorization] header, and a request whose header holds no space,
    make the gate index an empty slice; the handler panics and the caller
    gets no 403 response. *)
Theorem gate_panics_without_bearer_token (rt : http.Route)
    (hdr : gmap string (list string)) (payload : string) (ctx : gmap string iface)
    (s : storage.MongoRepository) :
  http.serve (http.mkRequest rt (delete "Authorization" hdr) payload ctx) s
    = Panicked "runtime error: index out of range [0] with length 0"
  /\ http.serve (http.mkRequest rt (<["Authorization" := ["Bearer"]]> hdr) payload ctx) s
    = Panicked "runtime error: index out of range [1] with length 1".
Proof.
  split; apply serve_gate_panics; unfold authorization; cbn [http.Header].
  - now rewrite lookup_delete_eq.
  - now rewrite lookup_insert_eq.
Qed.

(** C6 fails on the code: when the verifier turns the token down, the
    response is committed by [OktaAuth] with status 403 before [JSONApi]
    has run, so its header carries no [Content-Type] set by the service;
    the store is not touched. *)
Theorem forbidden_response_without_json_content_type (r : http.Request)
    (s : storage.MongoRepository) (err : error) :
  http.validateAccessToken (authorization r) = Returned (inr err) ->
  exists wd,
    http.serve r s = Returned wd
    /\ http.status (http.w wd) = http.StatusForbidden
    /\ http.wroteHeader (http.w wd) = true
    /\ sent "Content-Type" wd = None
    /\ http.body (http.w wd) = [http.Bytes (Error_ err)]
    /\ http.repo wd = s.
Proof.
  intros Hv. unfold http.serve. rewrite Router_at_gate.
  unfold http.OktaAuth. fold (authorization r). rewrite Hv.
  eexists. split; [reflexivity|].
  destruct (cors_headers_fresh r) as (Hw & Hct & Hb).
  unfold sent, at_gate, http.on_w, http.Write, http.WriteHeader.
  cbn [http.w http.repo http.stdlog http.wroteHeader http.status http.sentHeader http.body
       http.header].
  rewrite Hw. cbn [http.w http.repo http.stdlog http.wroteHeader http.status http.sentHeader
                   http.body http.header].
  repeat split; [exact Hct | now rewrite Hb].
Qed.

(** Once the gate has accepted the token, the routed handler runs with
    the subject in its context and the JSON content type already set. *)
Lemma serve_passed_gate (r : http.Request) (s : storage.MongoRepository) jwt sub :
  http.validateAccessToken (authorization r) = Returned (inl jwt) ->
  jwtverifier.Claims jwt !! "sub" = Some (IString sub) ->
  http.serve r s
  = http.router (http.WithContext "userId" (IString sub) r)
      (http.on_w (http.Header_Set "Content-Type" "application/json")
         (at_gate r {| http.w := http.newResponseWriter; http.repo := s; http.stdlog := [] |})).
Proof.
  intros Hv Hsub. unfold http.serve. rewrite Router_at_gate.
  unfold http.OktaAuth. fold (authorization r). rewrite Hv, Hsub. reflexivity.
Qed.

Lemma Context_userId_known (r : http.Request) owner :
  http.Context r !! "userId" = Some (IString owner) ->
  http.Context_userId r = Returned owner.
Proof. unfold http.Context_userId. now intros ->. Qed.

(** Every handler commits the header map it was entered with, under one
    of the statuses 200, 201 and 500. *)
Lemma router_commits (r : http.Request) (wd : World) owner :
  http.Context r !! "userId" = Some (IString owner) ->
  http.wroteHeader (http.w wd) = false ->
  exists wd',
    http.router r wd = Returned wd'
    /\ http.wroteHeader (http.w wd') = true
    /\ http.sentHeader (http.w wd') = http.header (http.w wd)
    /\ (http.status (http.w wd') = http.StatusOK
        \/ http.status (http.w wd') = http.StatusCreated
        \/ http.status (http.w wd') = http.StatusInternalServerError).
Proof.
  intros Hctx Hw. apply Context_userId_known in Hctx.
  unfold http.router.
  destruct (http.route r) as [| |id|id];
    unfold http.Index, http.Create, http.Delete, http.Update; rewrite Hctx.
  - destruct (kudo.GetKudos _ _) as [[ks|e] repo'];
      eexists; (split; [reflexivity|]);
      unfold http.on_w, http.with_repo, http.Write, http.WriteHeader; cbn; rewrite Hw; cbn; auto.
  - destruct (json.Unmarshal _ _) as [g e0].
    destruct (kudo.CreateKudoFor _ _ _) as [[k|e] repo'];
      eexists; (split; [reflexivity|]);
      unfold http.on_w, http.with_repo, http.Write, http.WriteHeader; cbn; rewrite Hw; cbn; auto.
  - destruct (strconv.Atoi id) as [n e0].
    destruct (kudo.RemoveKudo _ _ _) as [[k|e] repo'];
      eexists; (split; [reflexivity|]);
      unfold http.on_w, http.with_repo, http.Write, http.WriteHeader; cbn; rewrite Hw; cbn; auto.
  - destruct (json.Unmarshal _ _) as [g e0].
    destruct (kudo.UpdateKudoWith _ _ _) as [[k|e] repo'];
      eexists; (split; [reflexivity|]);
      unfold http.on_w, http.with_repo, http.Write, http.WriteHeader; cbn; rewrite Hw; cbn; auto.
Qed.

(** The part of C6 that holds: a request that passes the gate is always
    answered, errors of the store included, with the JSON content type. *)
Lemma authorized_response_is_json (r : http.Request) (s : storage.MongoRepository) jwt sub :
  http.validateAccessToken (authorization r) = Returned (inl jwt) ->
  jwtverifier.Claims jwt !! "sub" = Some (IString sub) ->
  exists wd,
    http.serve r s = Returned wd
    /\ sent "Content-Type" wd = Some ["application/json"]
    /\ (http.status (http.w wd) = http.StatusOK
        \/ http.status (http.w wd) = http.StatusCreated
        \/ http.status (http.w wd) = http.StatusInternalServerError).
Proof.
  intros Hv Hsub. rewrite (serve_passed_gate r s jwt sub Hv Hsub).
  destruct (cors_headers_fresh r) as (Hw & _ & _).
  match goal with |- context [http.router ?r' ?wd0] =>
    destruct (router_commits r' wd0 sub) as (wd & HR & _ & Hsent & Hst) end.
  - cbn. apply lookup_insert_eq.
  - unfold at_gate, http.on_w. cbn. exact Hw.
  - exists wd. split; [exact HR|]. split; [|exact Hst].
    unfold sent. rewrite Hsent. unfold at_gate, http.on_w. cbn.
    apply lookup_insert_eq.
Qed.

(** ** The handlers, entered with the owner in the request context *)

Ltac run_handler Hw :=
  eexists; (split; [reflexivity|]);
  unfold http.on_w, http.with_repo, http.Write, http.WriteHeader;
  cbn [http.w http.repo http.stdlog http.wroteHeader http.status http.sentHeader
       http.body http.header fst snd];
  rewrite Hw;
  cbn [http.w http.repo http.stdlog http.wroteHeader http.status http.sentHeader
       http.body http.header fst snd].

(** [Create] and [Update] drop the decoder's verdict and upsert the record
    mapped from whatever value the decoder left. *)
Lemma Create_upserts_decoded (r : http.Request) (wd : World) owner g verdict :
  json.Unmarshal (http.Body r) kudo.GitHubRepo_zero = (g, verdict) ->
  http.Context r !! "userId" = Some (IString owner) ->
  http.wroteHeader (http.w wd) = false ->
  reachable (http.repo wd) ->
  exists wd',
    http.Create r wd = Returned wd'
    /\ http.status (http.w wd') = http.StatusCreated
    /\ http.sentHeader (http.w wd') = http.header (http.w wd)
    /\ http.body (http.w wd')
       = http.body (http.w wd) ++ [http.JSON_Kudo (kudo.githubRepoToKudo (kudo.NewService owner) g)]
    /\ http.repo wd'
       = snd (storage.Create [kudo.githubRepoToKudo (kudo.NewService owner) g] (http.repo wd)).
Proof.
  intros HU Hctx Hw Hr. apply Context_userId_known in Hctx.
  destruct (storage_facts.Create_one (kudo.githubRepoToKudo (kudo.NewService owner) g)
              (http.repo wd) Hr) as (r' & HC & _).
  unfold http.Create, kudo.CreateKudoFor.
  rewrite Hctx, HU. cbn [Create storage.MongoRepository_Repository]. rewrite HC.
  run_handler Hw. repeat split.
Qed.

Lemma Update_upserts_decoded (r : http.Request) (wd : World) id owner g verdict :
  json.Unmarshal (http.Body r) kudo.GitHubRepo_zero = (g, verdict) ->
  http.Context r !! "userId" = Some (IString owner) ->
  http.wroteHeader (http.w wd) = false ->
  reachable (http.repo wd) ->
  exists wd',
    http.Update id r wd = Returned wd'
    /\ http.status (http.w wd') = http.StatusOK
    /\ http.sentHeader (http.w wd') = http.header (http.w wd)
    /\ http.body (http.w wd')
       = http.body (http.w wd) ++ [http.JSON_Kudo (kudo.githubRepoToKudo (kudo.NewService owner) g)]
    /\ http.repo wd'
       = snd (storage.Create [kudo.githubRepoToKudo (kudo.NewService owner) g] (http.repo wd)).
Proof.
  intros HU Hctx Hw Hr. apply Context_userId_known in Hctx.
  destruct (storage_facts.Create_one (kudo.githubRepoToKudo (kudo.NewService owner) g)
              (http.repo wd) Hr) as (r' & HC & _).
  unfold http.Update, kudo.UpdateKudoWith.
  rewrite Hctx, HU. cbn [Create storage.MongoRepository_Repository]. rewrite HC.
  run_handler Hw. repeat split.
Qed.

(** A malformed body never yields a client error: whatever the decoder
    and the store do, [Create] answers 201 or 500. *)
Lemma Create_never_rejects (r : http.Request) (wd : World) owner :
  http.Context r !! "userId" = Some (IString owner) ->
  http.wroteHeader (http.w wd) = false ->
  exists wd',
    http.Create r wd = Returned wd'
    /\ (http.status (http.w wd') = http.StatusCreated
        \/ http.status (http.w wd') = http.StatusInternalServerError).
Proof.
  intros Hctx Hw. apply Context_userId_known in Hctx.
  unfold http.Create. rewrite Hctx.
  destruct (json.Unmarshal _ _) as [g e0].
  destruct (kudo.CreateKudoFor _ _ _) as [[k|e] repo']; run_handler Hw; auto.
Qed.


(** ** Requests served through the whole middleware chain *)

(** C9, as the code has it: a POST or PUT whose body the decoder reports
    an error for is not turned down.  The error is dropped and whatever
    the decoder left in the value is mapped and upserted: on a reachable
    store the answer is 201 for POST and 200 for PUT, as JSON, with the
    stored record as its body.  After a syntax error the value is still
    the zero value, so the record is the owner's record with repository
    identifier "0" and empty fields; after any other error the record
    carries what the decoder stored. *)
Theorem unparsable_body_is_upserted (r : http.Request) (s : storage.MongoRepository)
    (jwt : jwtverifier.Jwt) (owner : string) (g : kudo.GitHubRepo) (e : json.DecodeError) :
  carries_body (http.route r) = true ->
  http.validateAccessToken (authorization r) = Returned (inl jwt) ->
  jwtverifier.Claims jwt !! "sub" = Some (IString owner) ->
  json.Unmarshal (http.Body r) kudo.GitHubRepo_zero = (g, Some e) ->
  reachable s ->
  exists wd,
    http.serve r s = Returned wd
    /\ http.status (http.w wd)
       = match http.route r with
         | http.POST_kudos => http.StatusCreated
         | _ => http.StatusOK
         end
    /\ sent "Content-Type" wd = Some ["application/json"]
    /\ http.body (http.w wd)
       = [http.JSON_Kudo (kudo.githubRepoToKudo (kudo.NewService owner) g)]
    /\ http.repo wd = snd (storage.Create [kudo.githubRepoToKudo (kudo.NewService owner) g] s)
    /\ records_for owner (RepoID (kudo.githubRepoToKudo (kudo.NewService owner) g))
         (stored (http.repo wd))
       = to_bson (kudo.githubRepoToKudo (kudo.NewService owner) g)
         :: tl (records_for owner (RepoID (kudo.githubRepoToKudo (kudo.NewService owner) g))
                  (stored s))
    /\ (forall msg, e = json.SyntaxError msg ->
          kudo.githubRepoToKudo (kudo.NewService owner) g = zero_record owner).
Proof.
  intros Hrt Hv Hsub HU Hr.
  rewrite (serve_passed_gate r s jwt owner Hv Hsub).
  destruct (cors_headers_fresh r) as (Hw & _ & Hb).
  destruct (storage_facts.Create_one (kudo.githubRepoToKudo (kudo.NewService owner) g) s Hr)
    as (r' & HC & _ & _ & Hrec).
  assert (Hzero : forall msg, e = json.SyntaxError msg ->
            kudo.githubRepoToKudo (kudo.NewService owner) g = zero_record owner).
  { intros msg ->. apply json.Unmarshal_syntax in HU. now subst g. }
  unfold http.router. cbn [http.route http.WithContext].
  destruct (http.route r) as [| |id|id] eqn:Hroute; try discriminate.
  - match goal with |- context [http.Create ?r' ?wd0] =>
      destruct (Create_upserts_decoded r' wd0 owner g (Some e))
        as (wd & HH & Hst & Hsent & Hbody & Hrepo) end;
      [exact HU | apply lookup_insert_eq | exact Hw | exact Hr |].
    exists wd. split; [exact HH|]. split; [exact Hst|].
    split; [unfold sent; rewrite Hsent; apply lookup_insert_eq|].
    split; [rewrite Hbody; cbn; now rewrite Hb|].
    split; [exact Hrepo|]. split; [|exact Hzero].
    rewrite Hrepo. cbn [http.repo at_gate http.on_w]. rewrite HC. exact Hrec.
  - match goal with |- context [http.Update id ?r' ?wd0] =>
      destruct (Update_upserts_decoded r' wd0 id owner g (Some e))
        as (wd & HH & Hst & Hsent & Hbody & Hrepo) end;
      [exact HU | apply lookup_insert_eq | exact Hw | exact Hr |].
    exists wd. split; [exact HH|]. split; [exact Hst|].
    split; [unfold sent; rewrite Hsent; apply lookup_insert_eq|].
    split; [rewrite Hbody; cbn; now rewrite Hb|].
    split; [exact Hrepo|]. split; [|exact Hzero].
    rewrite Hrepo. cbn [http.repo at_gate http.on_w]. rewrite HC. exact Hrec.
Qed.



End surface.

Lemma forbidden_response_without_json_content_type_witness :
  exists wd,
    http.serve (scenario.request http.GET_kudos (scenario.bearer "forged") EmptyString)
      scenario.store_u1_foo_bar = Returned wd
    /\ http.status (http.w wd) = http.StatusForbidden
    /\ http.wroteHeader (http.w wd) = true
    /\ sent "Content-Type" wd = None
    /\ http.body (http.w wd) = [http.Bytes (Error_ (ErrOther "token is not valid"))]
    /\ http.repo wd = scenario.store_u1_foo_bar.
Proof.
  apply (forbidden_response_without_json_content_type
           (scenario.request http.GET_kudos (scenario.bearer "forged") EmptyString)
           scenario.store_u1_foo_bar (ErrOther "token is not valid")).
  reflexivity.
Defined.

Lemma unparsable_body_is_upserted_witness :
  exists wd,
    http.serve (scenario.request http.POST_kudos (scenario.bearer "token-of-u1") "oops")
      scenario.store_two_users = Returned wd
    /\ http.status (http.w wd) = http.StatusCreated
    /\ sent "Content-Type" wd = Some ["application/json"]
    /\ http.body (http.w wd)
       = [http.JSON_Kudo (kudo.githubRepoToKudo (kudo.NewService "u1") kudo.GitHubRepo_zero)]
    /\ http.repo wd
       = snd (storage.Create [kudo.githubRepoToKudo (kudo.NewService "u1") kudo.GitHubRepo_zero]
                scenario.store_two_users)
    /\ records_for "u1" (RepoID (kudo.githubRepoToKudo (kudo.NewService "u1") kudo.GitHubRepo_zero))
         (stored (http.repo wd))
       = to_bson (kudo.githubRepoToKudo (kudo.NewService "u1") kudo.GitHubRepo_zero)
         :: tl (records_for "u1"
                  (RepoID (kudo.githubRepoToKudo (kudo.NewService "u1") kudo.GitHubRepo_zero))
                  (stored scenario.store_two_users))
    /\ (forall msg,
          json.SyntaxError "invalid character looking for beginning of value"
            = json.SyntaxError msg ->
          kudo.githubRepoToKudo (kudo.NewService "u1") kudo.GitHubRepo_zero = zero_record "u1").
Proof.
  apply (unparsable_body_is_upserted
           (scenario.request http.POST_kudos (scenario.bearer "token-of-u1") "oops")
           scenario.store_two_users
           {| jwtverifier.Claims := <["sub" := IString "u1"]> ∅ |} "u1"
           kudo.GitHubRepo_zero
           (json.SyntaxError "invalid character looking for beginning of value"));
    reflexivity.
Defined.

(** C9 fails as stated: the body [{"id":7,"full_name":5}] is JSON of the
    wrong shape, the decoder reports a type error for it and leaves the
    identifier 7 in the value; the POST is answered 201 with the record
    keyed "7", which is not the zero-valued record. *)
Lemma wrong_shape_body_is_not_zeroed :
  json.Unmarshal (Decoder := scenario.typed_decoder) scenario.wrong_shape_body
    kudo.GitHubRepo_zero
  = (scenario.baz_id_only,
     Some (json.UnmarshalTypeError
             "json: cannot unmarshal number into Go struct field GitHubRepo.full_name of type string"))
  /\ exists wd,
       http.serve (H0 := scenario.typed_decoder)
         (scenario.request http.POST_kudos (scenario.bearer "token-of-u1")
            scenario.wrong_shape_body)
         scenario.empty_store = Returned wd
       /\ http.status (http.w wd) = http.StatusCreated
       /\ http.body (http.w wd)
          = [http.JSON_Kudo (kudo.githubRepoToKudo scenario.u1 scenario.baz_id_only)]
       /\ RepoID (kudo.githubRepoToKudo scenario.u1 scenario.baz_id_only) = "7"
       /\ kudo.githubRepoToKudo scenario.u1 scenario.baz_id_only <> zero_record "u1"
       /\ stored (http.repo wd)
          = [to_bson (kudo.githubRepoToKudo scenario.u1 scenario.baz_id_only)].
Proof.
  split; [reflexivity|]. eexists. split; [reflexivity|].
  repeat split. discriminate.
Qed.



(** The scenario of the specification, served end to end: "u1" posts
    repository 42, lists it, deletes it, lists nothing; deleting it once
    more is answered with 500. *)
Example bookmark_round_trip :
  let k42 := kudo.githubRepoToKudo scenario.u1 (repo_with_id 42) in
  let auth := scenario.bearer "token-of-u1" in
  let s1 := scenario.store_of [to_bson k42] in
  answered (http.serve (scenario.request http.POST_kudos auth (scenario.id_document "42"))
              scenario.empty_store)
    = Some (http.StatusCreated, [http.JSON_Kudo k42], s1)
  /\ answered (http.serve (scenario.request http.GET_kudos auth EmptyString) s1)
    = Some (http.StatusOK, [http.JSON_Kudos [k42]], s1)
  /\ answered (http.serve (scenario.request (http.DELETE_kudos "42") auth EmptyString) s1)
    = Some (http.StatusOK, [], scenario.empty_store)
  /\ answered (http.serve (scenario.request http.GET_kudos auth EmptyString) scenario.empty_store)
    = Some (http.StatusOK, [http.JSON_Kudos []], scenario.empty_store)
  /\ answered (http.serve (scenario.request (http.DELETE_kudos "42") auth EmptyString)
                 scenario.empty_store)
    = Some (http.StatusInternalServerError, [], scenario.empty_store).
Proof. repeat split. Qed.

End http_facts.

(* ===================================================================== *)
(** * Further properties of the record store *)
(* ===================================================================== *)

Module storage_more.
Import core store_spec mgo_facts storage_facts.
Local Open Scope Z_scope.

Section more_first_match.
Variable p : gmap string string -> bool.

Lemma replace_first_length d' l l' :
  mgo.replace_first p d' l = Some l' -> length l' = length l.
Proof.
  revert l'. induction l as [|d r IH]; intros l' H; cbn [mgo.replace_first] in H;
    [discriminate|].
  destruct (p d).
  - inversion H; subst. reflexivity.
  - destruct (mgo.replace_first p d' r) as [r'|]; [|discriminate].
    inversion H; subst. cbn. now rewrite (IH r' eq_refl).
Qed.

Lemma remove_first_length l l' :
  mgo.remove_first p l = Some l' -> S (length l') = length l.
Proof.
  revert l'. induction l as [|d r IH]; intros l' H; cbn [mgo.remove_first] in H;
    [discriminate|].
  destruct (p d).
  - inversion H; subst. reflexivity.
  - destruct (mgo.remove_first p r) as [r'|]; [|discriminate].
    inversion H; subst. cbn. now rewrite (IH r' eq_refl).
Qed.

(** Removing the first match from a list whose only match is its last
    element gives the list without it. *)
Lemma remove_first_appended l d :
  List.filter p l = [] -> p d = true -> mgo.remove_first p (l ++ [d]) = Some l.
Proof.
  intros Hnone Hd. induction l as [|x r IH]; cbn [app mgo.remove_first].
  - now rewrite Hd.
  - cbn [List.filter] in Hnone. destruct (p x); [discriminate|].
    now rewrite (IH Hnone).
Qed.

End more_first_match.

Lemma selector_keyed k d :
  mgo.matches (<["repoId" := RepoID k]> (<["userId" := UserID k]> ∅)) d
  = keyed (UserID k) (RepoID k) d.
Proof. apply matches_key. Qed.

(** X1: [Update] is a replacement, not an upsert.  On a reachable store
    that holds no record under the key it returns the not-found error and
    changes nothing; when a record is held, the first one under the key is
    replaced by the new document and the number of documents stays. *)
Theorem Update_replaces_only_existing (k : Kudo) (r : storage.MongoRepository) :
  reachable r ->
  (records_for (UserID k) (RepoID k) (stored r) = [] ->
     storage.Update k r = (Some ErrNotFound, r))
  /\ (records_for (UserID k) (RepoID k) (stored r) <> [] ->
      exists r',
        storage.Update k r = (None, r')
        /\ reachable r'
        /\ records_for (UserID k) (RepoID k) (stored r')
           = to_bson k :: tl (records_for (UserID k) (RepoID k) (stored r))
        /\ length (stored r') = length (stored r)
        /\ forall o rid, (UserID k, RepoID k) <> (o, rid) ->
             records_for o rid (stored r') = records_for o rid (stored r)).
Proof.
  intros Hr0. destruct (reachable_inv r Hr0) as [Hr Hrf].
  pose proof (reachable_refusal r (to_bson k) Hr0) as Hacc.
  unfold stored, storage.Update, mgo.Update. rewrite Hr, Hacc.
  destruct (mgo.replace_first _ (to_bson k) (mgo.documents (storage.session r)))
    as [l|] eqn:Hrep; split.
  - intros Habs. rewrite <- filter_matches_key in Habs.
    apply (proj2 (replace_first_None _ (to_bson k) _)) in Habs. congruence.
  - intros _. eexists. split; [reflexivity|].
    split; [now apply reachable_intro|]. cbn.
    split; [|split].
    + pose proof Hrep as Hf. apply replace_first_filter in Hf.
      * now rewrite !filter_matches_key in Hf.
      * rewrite selector_keyed. apply to_bson_keyed.
    + eapply replace_first_length; eassumption.
    + intros o rid Hne. unfold records_for.
      eapply replace_first_other; [|exact Hrep|].
      * intros d Hd. rewrite selector_keyed in Hd.
        now apply (kudo_facts.keyed_disjoint (UserID k) (RepoID k)).
      * apply (kudo_facts.keyed_disjoint (UserID k) (RepoID k)); [exact Hne|].
        apply to_bson_keyed.
  - intros _. now rewrite with_own_session.
  - intros Hpres. apply replace_first_None in Hrep.
    rewrite filter_matches_key in Hrep. contradiction.
Qed.

Lemma Update_replaces_only_existing_witness :
  storage.Update (kudo.githubRepoToKudo scenario.u1 scenario.foo_bar) scenario.store_two_users
  = (Some ErrNotFound, scenario.store_two_users).
Proof.
  apply (proj1 (Update_replaces_only_existing
                  (kudo.githubRepoToKudo scenario.u1 scenario.foo_bar)
                  scenario.store_two_users eq_refl)).
  reflexivity.
Defined.

(** ** Batches *)

Lemma Create_cons k rest r :
  storage.Create (k :: rest) r
  = match storage.Create [k] r with
    | (Some e, r') => (Some e, r')
    | (None, r') => storage.Create rest r'
    end.
Proof.
  cbn [storage.Create].
  destruct (mgo.Upsert _ (to_bson k) (storage.session r)) as [[e|] db]; reflexivity.
Qed.

(** One upsert on a reachable store that keeps the key invariant: the
    record's key then holds exactly the new document, every other key
    holds what it held. *)
Lemma Create_one_keyed k r :
  reachable r -> unique_keys (stored r) ->
  exists r1,
    storage.Create [k] r = (None, r1)
    /\ reachable r1
    /\ unique_keys (stored r1)
    /\ records_for (UserID k) (RepoID k) (stored r1) = [to_bson k]
    /\ forall o rid, (UserID k, RepoID k) <> (o, rid) ->
         records_for o rid (stored r1) = records_for o rid (stored r).
Proof.
  intros Hr Hu.
  destruct (Create_one k r Hr) as (r1 & HC & Hr1 & _ & Hrec).
  exists r1. split; [exact HC|]. split; [exact Hr1|].
  pose proof (kudo_facts.Create_one_unique k r Hu) as Hu1. rewrite HC in Hu1.
  split; [exact Hu1|]. split.
  - rewrite Hrec. specialize (Hu (UserID k) (RepoID k)).
    destruct (records_for _ _ (stored r)) as [|d0 [|d1 rest]]; cbn in *; try reflexivity; lia.
  - intros o rid Hne. unfold records_for.
    pose proof (Create_one_other k r (keyed o rid)) as HO. rewrite HC in HO.
    apply HO. intros d. now apply kudo_facts.keyed_disjoint.
Qed.

Lemma key_dec (k : Kudo) (o rid : string) :
  {(UserID k, RepoID k) <> (o, rid)} + {~ (UserID k, RepoID k) <> (o, rid)}.
Proof.
  destruct (decide ((UserID k, RepoID k) = (o, rid))) as [Heq|Hne].
  - right. intros H. now apply H.
  - left. exact Hne.
Qed.

(** X2: a batch handed to [Create] on a reachable store that keeps the key
    invariant is upserted record by record and never fails: afterwards the
    invariant still holds, every record of the batch has exactly one
    record under its key, the key of the batch's last record holds that
    record, and a key no record of the batch carries holds what it held. *)
Theorem Create_batch_upserts_each (ks : list Kudo) :
  forall r : storage.MongoRepository,
  reachable r -> unique_keys (stored r) ->
  exists r',
    storage.Create ks r = (None, r')
    /\ reachable r'
    /\ unique_keys (stored r')
    /\ List.Forall
         (fun k => exists d, records_for (UserID k) (RepoID k) (stored r') = [d]) ks
    /\ (forall ks0 k, ks = ks0 ++ [k] ->
          records_for (UserID k) (RepoID k) (stored r') = [to_bson k])
    /\ (forall o rid,
          List.Forall (fun k => (UserID k, RepoID k) <> (o, rid)) ks ->
          records_for o rid (stored r') = records_for o rid (stored r)).
Proof.
  induction ks as [|k rest IH]; intros r Hr Hu.
  - exists r. cbn [storage.Create]. repeat split; try assumption.
    + constructor.
    + intros [|x ks0] k0 H; discriminate.
  - destruct (Create_one_keyed k r Hr Hu) as (r1 & HC & Hr1 & Hu1 & Hk & Hframe1).
    destruct (IH r1 Hr1 Hu1) as (r' & HC' & Hr' & Hu' & Hall & Hlast & Hframe).
    exists r'. rewrite Create_cons, HC. split; [exact HC'|].
    split; [exact Hr'|]. split; [exact Hu'|]. split; [|split].
    + constructor; [|exact Hall].
      destruct (List.Forall_Exists_dec
                  (fun k' => (UserID k', RepoID k') <> (UserID k, RepoID k))
                  (fun k' => key_dec k' (UserID k) (RepoID k)) rest) as [Hnone|Hsome].
      * exists (to_bson k). now rewrite (Hframe _ _ Hnone).
      * apply List.Exists_exists in Hsome. destruct Hsome as (k' & Hin & Hsame).
        rewrite List.Forall_forall in Hall. destruct (Hall k' Hin) as [d Hd].
        destruct (decide ((UserID k', RepoID k') = (UserID k, RepoID k))) as [Heq|Hne];
          [|contradiction].
        injection Heq as Ho Hrid. exists d. rewrite <- Ho, <- Hrid. exact Hd.
    + intros ks0 k0 Heq. destruct ks0 as [|x ks0]; cbn in Heq.
      * inversion Heq; subst. now rewrite (Hframe _ _ (List.Forall_nil _)).
      * inversion Heq; subst. now apply (Hlast ks0).
    + intros o rid Hno. inversion Hno as [|x l Hk0 Hrest]; subst.
      rewrite (Hframe o rid Hrest). now apply Hframe1.
Qed.

Lemma Create_batch_upserts_each_witness :
  exists r',
    storage.Create [kudo.githubRepoToKudo scenario.u1 scenario.foo_bar;
                    kudo.githubRepoToKudo scenario.u1 scenario.baz;
                    kudo.githubRepoToKudo scenario.u1 scenario.foo_bar_edited]
      scenario.empty_store = (None, r')
    /\ reachable r'
    /\ unique_keys (stored r').
Proof.
  destruct (Create_batch_upserts_each
              [kudo.githubRepoToKudo scenario.u1 scenario.foo_bar;
               kudo.githubRepoToKudo scenario.u1 scenario.baz;
               kudo.githubRepoToKudo scenario.u1 scenario.foo_bar_edited]
              scenario.empty_store eq_refl
              (fun o rid => le_S 0 0 (le_n 0)))
    as (r' & HC & Hr & Hu & _).
  exists r'. split; [exact HC|]. split; [exact Hr | exact Hu].
Defined.

(** A batch split in two is the first part, then (only when that part
    reported no error) the second. *)
Lemma Create_app ks1 ks2 : forall r,
  storage.Create (ks1 ++ ks2) r
  = match storage.Create ks1 r with
    | (Some e, r') => (Some e, r')
    | (None, r') => storage.Create ks2 r'
    end.
Proof.
  induction ks1 as [|k rest IH]; intros r; [reflexivity|].
  cbn [app]. rewrite (Create_cons k (rest ++ ks2)), (Create_cons k rest).
  destruct (storage.Create [k] r) as [[e|] r1]; [reflexivity|]. apply IH.
Qed.

Lemma refusal_same d db db' :
  mgo.refused db' = mgo.refused db -> mgo.refusal d db' = mgo.refusal d db.
Proof. unfold mgo.refusal. now intros ->. Qed.

Lemma Create_one_frame k r o rid :
  (UserID k, RepoID k) <> (o, rid) ->
  records_for o rid (stored (snd (storage.Create [k] r))) = records_for o rid (stored r).
Proof.
  intros Hne. unfold records_for. apply Create_one_other.
  intros d. now apply kudo_facts.keyed_disjoint.
Qed.

(** A batch of records the database takes is written to the end: every
    record has a document under its key afterwards, no key loses its
    last document, and a key no record of the batch carries holds what
    it held. *)
Lemma Create_accepted ks : forall r,
  mgo.fault (storage.session r) = None ->
  List.Forall (fun k => mgo.refusal (to_bson k) (storage.session r) = None) ks ->
  exists r',
    storage.Create ks r = (None, r')
    /\ mgo.fault (storage.session r') = None
    /\ mgo.refused (storage.session r') = mgo.refused (storage.session r)
    /\ List.Forall (fun k => records_for (UserID k) (RepoID k) (stored r') <> []) ks
    /\ (forall o rid, records_for o rid (stored r) <> [] ->
          records_for o rid (stored r') <> [])
    /\ (forall o rid,
          List.Forall (fun k => (UserID k, RepoID k) <> (o, rid)) ks ->
          records_for o rid (stored r') = records_for o rid (stored r)).
Proof.
  induction ks as [|k rest IH]; intros r Hf Hacc.
  - exists r. cbn [storage.Create]. repeat split; auto.
  - inversion Hacc as [|x l Hk Hrest]; subst.
    destruct (Create_one_accepted k r Hf Hk) as (r1 & HC & Hf1 & Hrf1 & _ & Hrec).
    assert (Hrest1 : List.Forall
              (fun k' => mgo.refusal (to_bson k') (storage.session r1) = None) rest).
    { eapply List.Forall_impl; [|exact Hrest].
      intros k' Hk'. cbn beta in *. now rewrite (refusal_same _ _ _ Hrf1). }
    destruct (IH r1 Hf1 Hrest1) as (r' & HC' & Hf' & Hrf' & Hall & Hkeep & Hframe).
    assert (Hstep : forall o rid, records_for o rid (stored r) <> [] ->
                      records_for o rid (stored r1) <> []).
    { intros o rid Hne.
      destruct (decide ((UserID k, RepoID k) = (o, rid))) as [Heq|Hdiff].
      - injection Heq as <- <-. rewrite Hrec. discriminate.
      - pose proof (Create_one_frame k r o rid Hdiff) as HF.
        rewrite HC in HF. cbn [snd] in HF. now rewrite HF. }
    exists r'. rewrite Create_cons, HC. split; [exact HC'|].
    split; [exact Hf'|]. split; [congruence|]. split; [|split].
    + constructor; [|exact Hall]. apply Hkeep. rewrite Hrec. discriminate.
    + intros o rid Hne. apply Hkeep, Hstep, Hne.
    + intros o rid Hno. inversion Hno as [|x l Hk0 Hrest0]; subst.
      rewrite (Hframe o rid Hrest0).
      pose proof (Create_one_frame k r o rid Hk0) as HF.
      now rewrite HC in HF.
Qed.

(** X3: [Create] works through its batch from the left and stops at the
    first error.  When the database takes the records of [ks1] and
    refuses the record [k] that follows them, the batch returns the error
    of [k] and leaves the store exactly as the batch [ks1] alone leaves
    it: the records before [k] are written, each has a document under
    its key, while [k] and the records after it are not attempted, a key
    no record of [ks1] carries holds what it held. *)
Theorem Create_stops_at_first_error (ks1 ks2 : list Kudo) (k : Kudo) (e : error)
    (r : storage.MongoRepository) :
  mgo.fault (storage.session r) = None ->
  List.Forall (fun k' => mgo.refusal (to_bson k') (storage.session r) = None) ks1 ->
  mgo.refusal (to_bson k) (storage.session r) = Some e ->
  exists r1,
    storage.Create ks1 r = (None, r1)
    /\ storage.Create (ks1 ++ k :: ks2) r = (Some e, r1)
    /\ List.Forall (fun k' => records_for (UserID k') (RepoID k') (stored r1) <> []) ks1
    /\ (forall o rid,
          List.Forall (fun k' => (UserID k', RepoID k') <> (o, rid)) ks1 ->
          records_for o rid (stored r1) = records_for o rid (stored r)).
Proof.
  intros Hf Hacc Href.
  destruct (Create_accepted ks1 r Hf Hacc) as (r1 & HC & Hf1 & Hrf1 & Hall & _ & Hframe).
  exists r1. split; [exact HC|]. split; [|split; assumption].
  rewrite Create_app, HC. apply Create_one_refused; [exact Hf1|].
  now rewrite (refusal_same _ _ _ Hrf1).
Qed.

Lemma Create_stops_at_first_error_witness :
  exists r1,
    storage.Create [kudo.githubRepoToKudo scenario.u1 scenario.foo_bar]
      scenario.store_refusing_baz = (None, r1)
    /\ storage.Create [kudo.githubRepoToKudo scenario.u1 scenario.foo_bar;
                       kudo.githubRepoToKudo scenario.u1 scenario.baz;
                       kudo.githubRepoToKudo scenario.u1 scenario.max_repo]
         scenario.store_refusing_baz
       = (Some (ErrOther "document is too large"), r1)
    /\ records_for "u1" "9223372036854775807" (stored r1) = [].
Proof.
  destruct (Create_stops_at_first_error
              [kudo.githubRepoToKudo scenario.u1 scenario.foo_bar]
              [kudo.githubRepoToKudo scenario.u1 scenario.max_repo]
              (kudo.githubRepoToKudo scenario.u1 scenario.baz)
              (ErrOther "document is too large")
              scenario.store_refusing_baz)
    as (r1 & HC & HB & _ & Hframe).
  - reflexivity.
  - repeat constructor.
  - reflexivity.
  - exists r1. split; [exact HC|]. split; [exact HB|].
    rewrite (Hframe "u1" "9223372036854775807"); [reflexivity|].
    repeat constructor. vm_compute. discriminate.
Defined.

(** ** Counting and listing *)

(** X4: [Count] reports the number of stored documents of all owners, and
    follows the writes: an upsert under a key the store does not hold adds
    one, an upsert under a key it holds adds none, a delete under a key it
    holds takes one away. *)
Theorem Count_follows_writes (k : Kudo) (r : storage.MongoRepository) :
  reachable r ->
  fst (storage.Count r) = inl (Z.of_nat (length (stored r)))
  /\ (records_for (UserID k) (RepoID k) (stored r) = [] ->
        fst (storage.Count (snd (storage.Create [k] r)))
        = inl (Z.of_nat (length (stored r)) + 1))
  /\ (records_for (UserID k) (RepoID k) (stored r) <> [] ->
        fst (storage.Count (snd (storage.Create [k] r)))
        = inl (Z.of_nat (length (stored r)))
        /\ fst (storage.Count (snd (storage.Delete k r)))
           = inl (Z.of_nat (length (stored r)) - 1)).
Proof.
  intros Hr0. pose proof (reachable_fault r Hr0) as Hr.
  pose proof (reachable_refusal r (to_bson k) Hr0) as Hacc. unfold stored.
  split; [|split].
  - unfold storage.Count, mgo.Count. cbn [fst]. now rewrite Hr.
  - intros Habs. rewrite <- filter_matches_key in Habs.
    apply (proj2 (replace_first_None _ (to_bson k) _)) in Habs.
    cbn [storage.Create]. unfold mgo.Upsert. rewrite Hr, Hacc, Habs.
    unfold storage.Count, mgo.Count. cbn. rewrite length_app. cbn. f_equal. lia.
  - intros Hpres. split.
    + cbn [storage.Create]. unfold mgo.Upsert. rewrite Hr, Hacc.
      destruct (mgo.replace_first _ (to_bson k) (mgo.documents (storage.session r)))
        as [l|] eqn:Hrep.
      * unfold storage.Count, mgo.Count. cbn.
        now rewrite (replace_first_length _ _ _ _ Hrep).
      * apply replace_first_None in Hrep. rewrite filter_matches_key in Hrep.
        contradiction.
    + unfold storage.Delete, mgo.Remove. rewrite Hr.
      destruct (mgo.remove_first _ (mgo.documents (storage.session r))) as [l|] eqn:Hrem.
      * unfold storage.Count, mgo.Count. cbn.
        rewrite <- (remove_first_length _ _ _ Hrem). f_equal. lia.
      * apply remove_first_None in Hrem. rewrite filter_matches_key in Hrem.
        contradiction.
Qed.

Lemma Count_follows_writes_witness :
  fst (storage.Count scenario.store_two_users) = inl 2.
Proof.
  apply (proj1 (Count_follows_writes (kudo.githubRepoToKudo scenario.u1 scenario.foo_bar)
                  scenario.store_two_users eq_refl)).
Defined.

Lemma matches_everything d : mgo.matches ∅ d = true.
Proof. apply bool_decide_eq_true. apply map_Forall_empty. Qed.

Lemma filter_everything {A} (f : A -> bool) (l : list A) :
  (forall x, f x = true) -> List.filter f l = l.
Proof.
  intros Hf. induction l as [|x r IH]; cbn; [reflexivity|]. now rewrite Hf, IH.
Qed.

(** X5: [FindAll] with the empty selector lists every stored record, of
    every owner, in store order, as many as [Count] reports; it leaves the
    repository as it was. *)
Theorem FindAll_empty_selector_lists_all (r : storage.MongoRepository) :
  reachable r ->
  storage.FindAll ∅ r = (inl (List.map of_bson (stored r)), r)
  /\ storage.Count r = (inl (Z.of_nat (length (List.map of_bson (stored r)))), r).
Proof.
  intros Hr0. pose proof (reachable_fault r Hr0) as Hr. unfold stored. split.
  - unfold storage.FindAll, mgo.Find_All. rewrite Hr.
    now rewrite (filter_everything _ _ matches_everything).
  - unfold storage.Count, mgo.Count. now rewrite Hr, length_map.
Qed.

Lemma FindAll_empty_selector_lists_all_witness :
  storage.FindAll ∅ scenario.store_two_users
  = (inl [kudo.githubRepoToKudo scenario.u2 scenario.foo_bar;
          kudo.githubRepoToKudo scenario.u1 scenario.baz], scenario.store_two_users).
Proof.
  apply (proj1 (FindAll_empty_selector_lists_all scenario.store_two_users eq_refl)).
Defined.

(** X6: [Find] can only return a record whose owner is the empty string:
    its selector takes the owner from the zero-valued local.  On a
    reachable store in which every document has a non-empty owner it
    answers not-found for every identifier, and logs that error. *)
Theorem Find_returns_ownerless_records (repoID : string) (r : storage.MongoRepository) :
  (forall k, fst (storage.Find repoID r) = inl k ->
     UserID k = EmptyString /\ RepoID k = repoID /\ snd (storage.Find repoID r) = r)
  /\ (reachable r ->
      List.Forall (fun d => d !! "userId" <> Some EmptyString) (stored r) ->
      storage.Find repoID r
      = (inr ErrNotFound, storage.Printf_error ErrNotFound r)).
Proof.
  unfold storage.Find, mgo.Find_One, stored. split.
  - intros k. destruct (mgo.fault (storage.session r)); [discriminate|].
    destruct (List.find _ (mgo.documents (storage.session r))) as [d|] eqn:Hfind;
      [|discriminate].
    cbn [fst snd]. intros Hk. inversion Hk; subst k. clear Hk.
    apply find_some in Hfind. destruct Hfind as [_ Hm].
    rewrite matches_key in Hm. apply bool_decide_eq_true in Hm. destruct Hm as [Ho Hrid].
    cbn in Ho. cbn. now rewrite Ho, Hrid.
  - intros Hr Hall. apply reachable_fault in Hr. rewrite Hr.
    destruct (List.find _ (mgo.documents (storage.session r))) as [d|] eqn:Hfind;
      [|reflexivity].
    apply find_some in Hfind. destruct Hfind as [Hin Hm].
    rewrite matches_key in Hm. apply bool_decide_eq_true in Hm. destruct Hm as [Ho _].
    rewrite List.Forall_forall in Hall. now destruct (Hall d Hin).
Qed.

Lemma Find_returns_ownerless_records_witness :
  storage.Find "42" scenario.store_two_users
  = (inr ErrNotFound, storage.Printf_error ErrNotFound scenario.store_two_users).
Proof.
  apply (proj2 (Find_returns_ownerless_records "42" scenario.store_two_users)).
  - reflexivity.
  - repeat constructor; vm_compute; discriminate.
Defined.

End storage_more.

(* ===================================================================== *)
(** * Further properties of the bookmark service *)
(* ===================================================================== *)

Module kudo_more.
Import core store_spec kudo_spec kudo_more_spec mgo_facts storage_facts storage_more.
Local Open Scope Z_scope.

Lemma to_int_is_int64 x : strconv.is_int64 (strconv.to_int x).
Proof.
  unfold strconv.to_int, strconv.wrap_signed, strconv.is_int64, strconv.minInt64,
    strconv.maxInt64.
  change strconv.intSize with 64. change (64 - 1) with 63.
  rewrite strconv_facts.pow2_63, strconv_facts.pow2_64.
  pose proof (Z.mod_pos_bound (x + 9223372036854775808) 18446744073709551616 ltac:(lia)).
  lia.
Qed.

Lemma Itoa_nonempty x : strconv.Itoa (strconv.to_int x) <> EmptyString.
Proof.
  intros Hempty.
  pose proof (strconv_facts.Atoi_Itoa _ (strconv_facts.to_int_is_int x)) as HA.
  rewrite Hempty in HA. discriminate.
Qed.

Lemma filter_map_comm {A B} (f : B -> bool) (g : A -> B) (l : list A) :
  List.filter f (List.map g l) = List.map g (List.filter (fun a => f (g a)) l).
Proof.
  induction l as [|a r IH]; cbn; [reflexivity|].
  destruct (f (g a)); cbn; now rewrite IH.
Qed.

Lemma filter_filter_and {A} (f g : A -> bool) (l : list A) :
  List.filter f (List.filter g l) = List.filter (fun a => g a && f a) l.
Proof.
  induction l as [|a r IH]; cbn; [reflexivity|].
  destruct (g a); cbn; [destruct (f a)|]; now rewrite IH.
Qed.

(** Among the documents of one owner, the decoded repository identifier
    singles out the key, as long as the identifier is not empty. *)
Lemma owned_with_id owner rid d :
  rid <> EmptyString ->
  owned_by owner d && String.eqb (RepoID (of_bson d)) rid = keyed owner rid d.
Proof.
  intros Hne. apply Bool.eq_iff_eq_true.
  unfold owned_by, keyed. rewrite andb_true_iff, !bool_decide_eq_true, String.eqb_eq.
  unfold has_key. cbn [of_bson RepoID].
  destruct (d !! "repoId") as [x|]; cbn.
  - split; intros [Ho Hx]; (split; [exact Ho | congruence]).
  - split; intros [Ho Hx]; [congruence | discriminate].
Qed.

(** What [GetKudos] returns on a reachable store. *)
Lemma GetKudos_reachable s (r : storage.MongoRepository) :
  reachable r ->
  kudo.GetKudos s r = (inl (List.map of_bson (records_of (kudo.userId s) (stored r))), r).
Proof.
  intros Hr0. pose proof (reachable_fault r Hr0) as Hr.
  unfold stored, kudo.GetKudos.
  cbn [FindAll storage.MongoRepository_Repository].
  unfold storage.FindAll, mgo.Find_All. rewrite Hr. unfold records_of.
  now rewrite (List.filter_ext _ _ (matches_owner (kudo.userId s))).
Qed.

Lemma listed_with_id_records s rid (r : storage.MongoRepository) :
  rid <> EmptyString ->
  listed_with_id rid (List.map of_bson (records_of (kudo.userId s) (stored r)))
  = List.map of_bson (records_for (kudo.userId s) rid (stored r)).
Proof.
  intros Hne. unfold listed_with_id, records_of, records_for.
  rewrite filter_map_comm, filter_filter_and. f_equal.
  apply List.filter_ext. intros d. now apply owned_with_id.
Qed.

(** X7: a bookmark that was just added is listed.  After [CreateKudoFor]
    on a reachable store, [GetKudos] of the same service returns the
    mapped record among records that all belong to the service's owner;
    when the store held at most one record under the key, the listing
    holds exactly one record with that repository identifier, the mapped
    one. *)
Theorem created_bookmark_is_listed (s : kudo.Service) (g : kudo.GitHubRepo)
    (r : storage.MongoRepository) :
  reachable r ->
  exists r1 ks,
    kudo.CreateKudoFor s g r = (inl (kudo.githubRepoToKudo s g), r1)
    /\ kudo.GetKudos s r1 = (inl ks, r1)
    /\ In (kudo.githubRepoToKudo s g) ks
    /\ List.Forall (fun k => UserID k = kudo.userId s) ks
    /\ ((length (records_for (kudo.userId s) (RepoID (kudo.githubRepoToKudo s g))
                   (stored r)) <= 1)%nat ->
        listed_with_id (RepoID (kudo.githubRepoToKudo s g)) ks
        = [kudo.githubRepoToKudo s g]).
Proof.
  intros Hr.
  destruct (kudo_facts.CreateKudoFor_reachable s g r Hr) as (r1 & HC & Hr1 & Hrec).
  exists r1, (List.map of_bson (records_of (kudo.userId s) (stored r1))).
  split; [exact HC|]. split; [now apply GetKudos_reachable|].
  assert (Hlisted : listed_with_id (RepoID (kudo.githubRepoToKudo s g))
                      (List.map of_bson (records_of (kudo.userId s) (stored r1)))
                    = kudo.githubRepoToKudo s g
                      :: List.map of_bson
                           (tl (records_for (kudo.userId s)
                                  (RepoID (kudo.githubRepoToKudo s g)) (stored r)))).
  { rewrite listed_with_id_records by apply Itoa_nonempty.
    cbn [kudo.githubRepoToKudo RepoID]. rewrite Hrec. cbn [List.map].
    now rewrite of_to_bson. }
  split; [|split].
  - assert (Hin : In (kudo.githubRepoToKudo s g)
                    (listed_with_id (RepoID (kudo.githubRepoToKudo s g))
                       (List.map of_bson (records_of (kudo.userId s) (stored r1)))))
      by (rewrite Hlisted; now left).
    unfold listed_with_id in Hin. apply filter_In in Hin. apply Hin.
  - apply List.Forall_forall. intros k Hk. apply in_map_iff in Hk.
    destruct Hk as (d & <- & Hd). apply filter_In in Hd. destruct Hd as [_ Hd].
    apply bool_decide_eq_true in Hd. cbn. now rewrite Hd.
  - intros Hone. rewrite Hlisted.
    destruct (records_for _ _ (stored r)) as [|d0 [|d1 rest]]; cbn in Hone |- *;
      [reflexivity | reflexivity | lia].
Qed.

Lemma created_bookmark_is_listed_witness :
  exists r1 ks,
    kudo.CreateKudoFor scenario.u1 scenario.foo_bar scenario.store_two_users
      = (inl (kudo.githubRepoToKudo scenario.u1 scenario.foo_bar), r1)
    /\ kudo.GetKudos scenario.u1 r1 = (inl ks, r1)
    /\ In (kudo.githubRepoToKudo scenario.u1 scenario.foo_bar) ks.
Proof.
  destruct (created_bookmark_is_listed scenario.u1 scenario.foo_bar
              scenario.store_two_users eq_refl)
    as (r1 & ks & HC & HG & Hin & _).
  exists r1, ks. split; [exact HC|]. split; [exact HG | exact Hin].
Defined.

(** An upsert under a key the store does not hold, followed by a delete
    under the same key, gives back the documents the store started with. *)
Lemma Create_then_Delete_restores (k k' : Kudo) (r : storage.MongoRepository) :
  reachable r ->
  (UserID k', RepoID k') = (UserID k, RepoID k) ->
  records_for (UserID k) (RepoID k) (stored r) = [] ->
  exists r1 r2,
    storage.Create [k] r = (None, r1)
    /\ reachable r1
    /\ storage.Delete k' r1 = (None, r2)
    /\ reachable r2
    /\ stored r2 = stored r.
Proof.
  intros Hr0 Hkey Habs. injection Hkey as Ho Hrid.
  destruct (reachable_inv r Hr0) as [Hr Hrf].
  pose proof (reachable_refusal r (to_bson k) Hr0) as Hacc.
  cbn [storage.Create]. unfold storage.Delete, mgo.Upsert, mgo.Remove, stored in *.
  rewrite Hr, Hacc. rewrite <- filter_matches_key in Habs.
  pose proof Habs as Hnone.
  apply (proj2 (replace_first_None _ (to_bson k) _)) in Hnone. rewrite Hnone.
  do 2 eexists. split; [reflexivity|]. split; [now apply reachable_intro|].
  cbn [storage.session storage.with_session mgo.fault mgo.documents].
  rewrite Ho, Hrid. rewrite (remove_first_appended _ _ _ Habs).
  - cbn. repeat split. now apply reachable_intro.
  - rewrite matches_key. apply to_bson_keyed.
Qed.

(** X8: bookmarking and then un-bookmarking undoes itself.  On a reachable
    store with at most one record under the key, [CreateKudoFor] followed
    by [RemoveKudo] for the same repository both succeed and leave no
    record under the key; when the store held none before, its documents
    are exactly the ones it started with. *)
Theorem bookmark_then_unbookmark (s : kudo.Service) (g : kudo.GitHubRepo)
    (r : storage.MongoRepository) :
  reachable r ->
  (length (records_for (kudo.userId s) (RepoID (kudo.githubRepoToKudo s g)) (stored r))
   <= 1)%nat ->
  exists r1 r2,
    kudo.CreateKudoFor s g r = (inl (kudo.githubRepoToKudo s g), r1)
    /\ kudo.RemoveKudo s g r1 = (inl (kudo.githubRepoToKudo s g), r2)
    /\ records_for (kudo.userId s) (RepoID (kudo.githubRepoToKudo s g)) (stored r2) = []
    /\ (records_for (kudo.userId s) (RepoID (kudo.githubRepoToKudo s g)) (stored r) = [] ->
        stored r2 = stored r).
Proof.
  intros Hr Hone.
  destruct (kudo_facts.CreateKudoFor_reachable s g r Hr) as (r1 & HC & Hr1 & Hrec).
  cbn [kudo.githubRepoToKudo RepoID] in Hone.
  assert (Hrec1 : records_for (kudo.userId s)
                    (strconv.Itoa (strconv.to_int (kudo.RepoID g))) (stored r1)
                  = [to_bson (kudo.githubRepoToKudo s g)]).
  { rewrite Hrec.
    destruct (records_for _ _ (stored r)) as [|d0 [|d1 rest]]; cbn in Hone |- *;
      [reflexivity | reflexivity | lia]. }
  destruct (Delete_present (kudo.githubRepoToKudo s g) r1 Hr1) as (r2 & HD & _ & Hrec2).
  { cbn [kudo.githubRepoToKudo UserID RepoID]. rewrite Hrec1. discriminate. }
  exists r1, r2. split; [exact HC|]. split; [|split].
  - unfold kudo.RemoveKudo. cbn [Delete storage.MongoRepository_Repository].
    now rewrite HD.
  - cbn [kudo.githubRepoToKudo UserID RepoID] in Hrec2 |- *.
    rewrite Hrec2, Hrec1. reflexivity.
  - intros Habs.
    destruct (Create_then_Delete_restores (kudo.githubRepoToKudo s g)
                (kudo.githubRepoToKudo s g) r Hr eq_refl Habs)
      as (r1' & r2' & HC1 & _ & HD1 & _ & Hsame).
    revert HC. unfold kudo.CreateKudoFor. cbn [Create storage.MongoRepository_Repository].
    rewrite HC1. intros HC. inversion HC; subst r1'.
    rewrite HD1 in HD. inversion HD; subst r2'. exact Hsame.
Qed.

Lemma bookmark_then_unbookmark_witness :
  exists r1 r2,
    kudo.CreateKudoFor scenario.u1 scenario.foo_bar scenario.store_two_users
      = (inl (kudo.githubRepoToKudo scenario.u1 scenario.foo_bar), r1)
    /\ kudo.RemoveKudo scenario.u1 scenario.foo_bar r1
      = (inl (kudo.githubRepoToKudo scenario.u1 scenario.foo_bar), r2)
    /\ stored r2 = stored scenario.store_two_users.
Proof.
  destruct (bookmark_then_unbookmark scenario.u1 scenario.foo_bar scenario.store_two_users
              eq_refl (le_S 0 0 (le_n 0)))
    as (r1 & r2 & HC & HR & _ & Hsame).
  exists r1, r2. split; [exact HC|]. split; [exact HR|]. apply Hsame. reflexivity.
Defined.

(** X9: [RemoveKudo] under a key a reachable store holds succeeds and
    returns the record mapped from its argument, not the stored one; one
    document, the first under the key, is gone, and every other key holds
    what it held. *)
Theorem RemoveKudo_present_key (s : kudo.Service) (g : kudo.GitHubRepo)
    (r : storage.MongoRepository) :
  reachable r ->
  records_for (kudo.userId s) (RepoID (kudo.githubRepoToKudo s g)) (stored r) <> [] ->
  exists r',
    kudo.RemoveKudo s g r = (inl (kudo.githubRepoToKudo s g), r')
    /\ reachable r'
    /\ records_for (kudo.userId s) (RepoID (kudo.githubRepoToKudo s g)) (stored r')
       = tl (records_for (kudo.userId s) (RepoID (kudo.githubRepoToKudo s g)) (stored r))
    /\ S (length (stored r')) = length (stored r)
    /\ forall o rid, (kudo.userId s, RepoID (kudo.githubRepoToKudo s g)) <> (o, rid) ->
         records_for o rid (stored r') = records_for o rid (stored r).
Proof.
  intros Hr Hpres.
  destruct (Delete_present (kudo.githubRepoToKudo s g) r Hr Hpres) as (r' & HD & Hr' & Hrec).
  exists r'. split; [|split; [exact Hr'|split; [exact Hrec|]]].
  - unfold kudo.RemoveKudo. cbn [Delete storage.MongoRepository_Repository].
    now rewrite HD.
  - split.
    + revert HD. apply reachable_fault in Hr.
      unfold storage.Delete, mgo.Remove, stored in *. rewrite Hr.
      destruct (mgo.remove_first _ (mgo.documents (storage.session r))) as [l|] eqn:Hrem;
        intros HD; inversion HD; subst r'. cbn.
      eapply remove_first_length; eassumption.
    + intros o rid Hne. unfold records_for.
      pose proof (Delete_other (kudo.githubRepoToKudo s g) r (keyed o rid)) as HO.
      rewrite HD in HO. apply HO. intros d.
      now apply kudo_facts.keyed_disjoint.
Qed.

Lemma RemoveKudo_present_key_witness :
  exists r',
    kudo.RemoveKudo scenario.u1 scenario.foo_bar_edited scenario.store_u1_foo_bar
      = (inl (kudo.githubRepoToKudo scenario.u1 scenario.foo_bar_edited), r')
    /\ reachable r'.
Proof.
  destruct (RemoveKudo_present_key scenario.u1 scenario.foo_bar_edited
              scenario.store_u1_foo_bar eq_refl)
    as (r' & HR & Hr' & _).
  - vm_compute. discriminate.
  - exists r'. split; [exact HR | exact Hr'].
Defined.

(** While the database fails, every call on the service returns the
    database's error as it is and no document changes; the failure is
    still pending afterwards. *)
Lemma run_call_faulty (s : kudo.Service) (c : Call)
    (r : storage.MongoRepository) (e : error) :
  mgo.fault (storage.session r) = Some e ->
  reply_error (fst (run_call s c r)) = Some e
  /\ stored (snd (run_call s c r)) = stored r
  /\ mgo.fault (storage.session (snd (run_call s c r))) = Some e.
Proof.
  intros Hf. unfold stored.
  destruct c as [|g|g|g]; cbn [run_call].
  - unfold kudo.GetKudos. cbn [FindAll storage.MongoRepository_Repository].
    unfold storage.FindAll, mgo.Find_All. rewrite Hf. cbn. auto.
  - unfold kudo.CreateKudoFor. cbn [Create storage.MongoRepository_Repository storage.Create].
    unfold mgo.Upsert. rewrite Hf. cbn. auto.
  - unfold kudo.UpdateKudoWith. cbn [Create storage.MongoRepository_Repository storage.Create].
    unfold mgo.Upsert. rewrite Hf. cbn. auto.
  - unfold kudo.RemoveKudo. cbn [Delete storage.MongoRepository_Repository].
    unfold storage.Delete, mgo.Remove. rewrite Hf. cbn. auto.
Qed.

(** ** What the stores the service produces look like *)

Lemma replace_first_In (p : gmap string string -> bool) d' l l' d :
  mgo.replace_first p d' l = Some l' -> In d l' -> In d l \/ d = d'.
Proof.
  revert l'. induction l as [|x r IH]; intros l' H Hin; cbn [mgo.replace_first] in H;
    [discriminate|].
  destruct (p x).
  - inversion H; subst. destruct Hin as [<-|Hin]; [now right | left; now right].
  - destruct (mgo.replace_first p d' r) as [r'|]; [|discriminate].
    inversion H; subst. destruct Hin as [<-|Hin]; [left; now left|].
    destruct (IH r' eq_refl Hin) as [Hr|Hd]; [left; now right | now right].
Qed.

Lemma remove_first_In (p : gmap string string -> bool) l l' d :
  mgo.remove_first p l = Some l' -> In d l' -> In d l.
Proof.
  revert l'. induction l as [|x r IH]; intros l' H Hin; cbn [mgo.remove_first] in H;
    [discriminate|].
  destruct (p x).
  - inversion H; subst. now right.
  - destruct (mgo.remove_first p r) as [r'|]; [|discriminate].
    inversion H; subst. destruct Hin as [<-|Hin]; [now left|].
    right. now apply (IH r').
Qed.

(** A call adds no document but the image of the record it maps. *)
Lemma run_call_documents s c (r : storage.MongoRepository) d :
  In d (stored (snd (run_call s c r))) ->
  In d (stored r) \/ exists g, d = to_bson (kudo.githubRepoToKudo s g).
Proof.
  unfold stored. destruct c as [|g|g|g]; cbn [run_call].
  - unfold kudo.GetKudos. cbn [FindAll storage.MongoRepository_Repository].
    unfold storage.FindAll. destruct (mgo.Find_All _ _); cbn; auto.
  - unfold kudo.CreateKudoFor. cbn [Create storage.MongoRepository_Repository storage.Create].
    unfold mgo.Upsert. destruct (mgo.fault (storage.session r)); [cbn; auto|].
    destruct (mgo.refusal _ (storage.session r)); [cbn; auto|].
    destruct (mgo.replace_first _ _ _) as [l|] eqn:Hrep; cbn.
    + intros Hin. destruct (replace_first_In _ _ _ _ _ Hrep Hin); eauto.
    + intros Hin. apply in_app_or in Hin. destruct Hin as [Hin|[<-|[]]]; eauto.
  - unfold kudo.UpdateKudoWith. cbn [Create storage.MongoRepository_Repository storage.Create].
    unfold mgo.Upsert. destruct (mgo.fault (storage.session r)); [cbn; auto|].
    destruct (mgo.refusal _ (storage.session r)); [cbn; auto|].
    destruct (mgo.replace_first _ _ _) as [l|] eqn:Hrep; cbn.
    + intros Hin. destruct (replace_first_In _ _ _ _ _ Hrep Hin); eauto.
    + intros Hin. apply in_app_or in Hin. destruct Hin as [Hin|[<-|[]]]; eauto.
  - unfold kudo.RemoveKudo. cbn [Delete storage.MongoRepository_Repository].
    unfold storage.Delete, mgo.Remove. destruct (mgo.fault (storage.session r)); [cbn; auto|].
    destruct (mgo.remove_first _ _) as [l|] eqn:Hrem; cbn; [|auto].
    intros Hin. left. eapply remove_first_In; eassumption.
Qed.

(** X10: invariants of every store that service calls produce from an
    empty collection, whatever the database's failures in between: at
    most one record per (owner, repository) key, and every document is the
    stored form of a record some service mapped from an external
    repository, so decoding it and storing it again gives it back and its
    repository identifier reads back as a number. *)
Theorem produced_store_invariants (r : storage.MongoRepository) :
  history.produced r ->
  unique_keys (stored r)
  /\ List.Forall
       (fun d =>
          (exists s g, d = to_bson (kudo.githubRepoToKudo s g))
          /\ to_bson (of_bson d) = d
          /\ snd (strconv.Atoi (RepoID (of_bson d))) = None)
       (stored r).
Proof.
  intros Hp. split; [now apply kudo_facts.produced_unique_keys|].
  assert (Himg : List.Forall (fun d => exists s g, d = to_bson (kudo.githubRepoToKudo s g))
                   (stored r)).
  { induction Hp as [lg f rf | f r _ IH | rf r _ IH | s c r _ IH].
    - constructor.
    - exact IH.
    - exact IH.
    - apply List.Forall_forall. intros d Hd.
      destruct (run_call_documents s c r d Hd) as [Hold|[g ->]]; [|eauto].
      rewrite List.Forall_forall in IH. now apply IH. }
  eapply List.Forall_impl; [|exact Himg].
  intros d (s & g & ->). split; [eauto|]. rewrite of_to_bson. split; [reflexivity|].
  cbn [kudo.githubRepoToKudo RepoID].
  now rewrite (strconv_facts.Atoi_Itoa _ (strconv_facts.to_int_is_int (kudo.RepoID g))).
Qed.

Lemma produced_store_invariants_witness :
  unique_keys
    (stored (snd (run_call scenario.u1 (CreateKudoFor scenario.foo_bar)
                    scenario.empty_store))).
Proof.
  apply (proj1 (produced_store_invariants _
                  (history.produced_call scenario.u1 (CreateKudoFor scenario.foo_bar) _
                     (history.produced_empty [] None [])))).
Defined.

End kudo_more.

(* ===================================================================== *)
(** * Further properties of the gate and the HTTP surface *)
(* ===================================================================== *)

Module http_more.
Import core store_spec strconv_spec kudo_spec kudo_more_spec http_spec http_more_spec.
Import http_facts.
Local Open Scope Z_scope.

(** ** Splitting the header value *)

Lemma Split_nonempty s sep : strings.Split s sep <> [].
Proof.
  destruct s as [|c r]; cbn [strings.Split]; [discriminate|].
  destruct (Ascii.eqb c sep); [discriminate|].
  destruct (strings.Split r sep); discriminate.
Qed.

Lemma Split_no_space a : no_space a = true -> strings.Split a " " = [a].
Proof.
  induction a as [|c r IH]; cbn [no_space strings.Split]; [reflexivity|].
  intros H. apply andb_true_iff in H. destruct H as [Hc Hr].
  apply negb_true_iff in Hc. rewrite Hc, (IH Hr). reflexivity.
Qed.

Lemma Split_at_first_space a b :
  no_space a = true ->
  strings.Split (String.append a (String " " b)) " " = a :: strings.Split b " ".
Proof.
  induction a as [|c r IH]; cbn [no_space].
  - intros _. reflexivity.
  - intros H. apply andb_true_iff in H. destruct H as [Hc Hr].
    apply negb_true_iff in Hc.
    change (String.append (String c r) (String " " b))
      with (String c (String.append r (String " " b))).
    cbn [strings.Split]. rewrite Hc, (IH Hr). reflexivity.
Qed.

Lemma append_empty (s : string) : String.append s EmptyString = s.
Proof.
  induction s as [|c r IH]; [reflexivity|].
  change (String.append (String c r) EmptyString)
    with (String c (String.append r EmptyString)).
  now rewrite IH.
Qed.

(** A string with a space splits at its first one. *)
Lemma first_space v :
  no_space v = false ->
  exists a b, v = String.append a (String " " b) /\ no_space a = true.
Proof.
  induction v as [|c r IH]; cbn [no_space]; [discriminate|].
  destruct (Ascii.eqb_spec c " ") as [->|Hc]; cbn [negb andb].
  - intros _. exists EmptyString, r. split; reflexivity.
  - intros Hr. destruct (IH Hr) as (a & b & -> & Ha).
    exists (String c a), b. split; [reflexivity|].
    cbn [no_space]. rewrite Ha.
    destruct (Ascii.eqb_spec c " "); [contradiction | reflexivity].
Qed.

Section surface_more.
Context `{!jwtverifier.Verifier} `{!json.Decoder}.

(** X11: the gate hands the verifier the text between the first and the
    second space of the first [Authorization] value.  What stands before
    the first space is not compared with "Bearer", what follows the second
    space and any further value of the header are ignored. *)
Theorem gate_verifies_second_field (scheme token tail : string) (more : list string) :
  no_space scheme = true ->
  no_space token = true ->
  token_tail tail = true ->
  http.validateAccessToken
    (String.append scheme (String " " (String.append token tail)) :: more)
  = Returned (jwtverifier.VerifyIdToken token).
Proof.
  intros Hs Ht Htail. unfold http.validateAccessToken.
  rewrite (Split_at_first_space _ _ Hs). cbn [nth_error].
  destruct tail as [|c rest]; cbn [token_tail] in Htail.
  - rewrite append_empty. now rewrite (Split_no_space _ Ht).
  - apply Ascii.eqb_eq in Htail. subst c.
    now rewrite (Split_at_first_space _ _ Ht).
Qed.

(** X12: the gate panics exactly when the [Authorization] header is absent
    or its first value holds no space; in every other case it returns what
    the verifier says. *)
Theorem gate_panics_exactly_without_space (accessToken : list string) :
  ((exists msg, http.validateAccessToken accessToken = Panicked msg)
   <-> (accessToken = []
        \/ exists v more, accessToken = v :: more /\ no_space v = true))
  /\ (forall res, http.validateAccessToken accessToken = Returned res ->
        exists token, res = jwtverifier.VerifyIdToken token).
Proof.
  unfold http.validateAccessToken. split; [|
    destruct accessToken as [|v more]; [discriminate|];
    destruct (nth_error (strings.Split v " ") 1) as [token|]; [|discriminate];
    intros res Hres; inversion Hres; eauto ].
  split.
  - intros [msg Hp]. destruct accessToken as [|v more]; [now left|]. right.
    exists v, more. split; [reflexivity|].
    destruct (no_space v) eqn:Hv; [reflexivity|].
    destruct (first_space v Hv) as (a & b & -> & Ha).
    rewrite (Split_at_first_space _ _ Ha) in Hp. cbn [nth_error] in Hp.
    pose proof (Split_nonempty b " ") as Hne.
    destruct (strings.Split b " "); [contradiction | discriminate].
  - intros [->|(v & more & -> & Hv)]; [eauto|].
    rewrite (Split_no_space _ Hv). cbn. eauto.
Qed.

(** X13: a token the verifier accepts but whose claims hold no string
    under "sub" makes the gate's type assertion fail: the request panics,
    nothing is answered and no handler runs. *)
Theorem subject_must_be_a_string (r : http.Request) (s : storage.MongoRepository)
    (jwt : jwtverifier.Jwt) :
  http.validateAccessToken (authorization r) = Returned (inl jwt) ->
  (forall sub, jwtverifier.Claims jwt !! "sub" <> Some (IString sub)) ->
  http.serve r s = Panicked "interface conversion: interface {} is not string".
Proof.
  intros Hv Hsub. unfold http.serve. rewrite Router_at_gate.
  unfold http.OktaAuth. fold (authorization r). rewrite Hv.
  destruct (jwtverifier.Claims jwt !! "sub") as [[sub|]|] eqn:Hlook; try reflexivity.
  now destruct (Hsub sub).
Qed.

Ltac finish_handler Hw Hb :=
  eexists; (split; [reflexivity|]);
  unfold at_gate, http.on_w, http.with_repo, http.Write, http.WriteHeader, http.Header_Set;
  cbn [http.w http.repo http.stdlog http.wroteHeader http.status http.sentHeader
       http.body http.header fst snd];
  rewrite Hw;
  cbn [http.w http.repo http.stdlog http.wroteHeader http.status http.sentHeader
       http.body http.header fst snd];
  rewrite ?Hb; repeat split.

(** An authorized request is answered by one service call: the store is
    the one the call leaves, status and body are chosen from the call's
    reply, the response is JSON, and one line is logged. *)
Lemma serve_authorized_call (r : http.Request) (s : storage.MongoRepository) jwt owner :
  http.validateAccessToken (authorization r) = Returned (inl jwt) ->
  jwtverifier.Claims jwt !! "sub" = Some (IString owner) ->
  exists wd,
    http.serve r s = Returned wd
    /\ http.repo wd = snd (run_call (kudo.NewService owner) (call_of r) s)
    /\ http.status (http.w wd)
       = status_for (http.route r) (fst (run_call (kudo.NewService owner) (call_of r) s))
    /\ http.body (http.w wd)
       = body_for (http.route r) (fst (run_call (kudo.NewService owner) (call_of r) s))
    /\ http.sentHeader (http.w wd)
       = <["Content-Type" := ["application/json"]]>
           (http.header (cors_headers r http.newResponseWriter))
    /\ http.stdlog wd = [log_line r].
Proof.
  intros Hv Hsub. rewrite (serve_passed_gate r s jwt owner Hv Hsub).
  destruct (cors_headers_fresh r) as (Hw & _ & Hb).
  unfold http.router, call_of. cbn [http.route http.WithContext].
  destruct (http.route r) as [| |id|id];
    unfold http.Index, http.Create, http.Delete, http.Update, http.Context_userId;
    cbn [http.Context http.Body http.WithContext];
    rewrite lookup_insert_eq; cbn [run_call].
  - cbn [http.repo at_gate http.on_w].
    destruct (kudo.GetKudos (kudo.NewService owner) s) as [[ks|e] s'];
      finish_handler Hw Hb.
  - destruct (json.Unmarshal (http.Body r) kudo.GitHubRepo_zero) as [g verdict].
    cbn [http.repo at_gate http.on_w fst].
    destruct (kudo.CreateKudoFor (kudo.NewService owner) g s) as [[k|e] s'];
      finish_handler Hw Hb.
  - destruct (strconv.Atoi id) as [n verdict]. cbn [fst].
    fold (repo_with_id n). cbn [http.repo at_gate http.on_w].
    destruct (kudo.RemoveKudo (kudo.NewService owner) (repo_with_id n) s) as [[k|e] s'];
      finish_handler Hw Hb.
  - destruct (json.Unmarshal (http.Body r) kudo.GitHubRepo_zero) as [g verdict].
    cbn [http.repo at_gate http.on_w fst].
    destruct (kudo.UpdateKudoWith (kudo.NewService owner) g s) as [[k|e] s'];
      finish_handler Hw Hb.
Qed.

(** X14: an authorized GET /kudos on a reachable store is answered 200,
    as JSON, with the decoded documents of the token's subject, in store
    order and nothing else; the store is left as it was. *)
Theorem list_request_returns_owner_records (r : http.Request)
    (s : storage.MongoRepository) (jwt : jwtverifier.Jwt) (owner : string) :
  http.route r = http.GET_kudos ->
  http.validateAccessToken (authorization r) = Returned (inl jwt) ->
  jwtverifier.Claims jwt !! "sub" = Some (IString owner) ->
  reachable s ->
  exists wd,
    http.serve r s = Returned wd
    /\ http.status (http.w wd) = http.StatusOK
    /\ sent "Content-Type" wd = Some ["application/json"]
    /\ http.body (http.w wd)
       = [http.JSON_Kudos (List.map of_bson (records_of owner (stored s)))]
    /\ http.repo wd = s.
Proof.
  intros Hroute Hv Hsub Hr.
  destruct (serve_authorized_call r s jwt owner Hv Hsub)
    as (wd & HS & Hrepo & Hst & Hbody & Hsent & _).
  unfold call_of in *. rewrite Hroute in *. cbn [run_call] in *.
  rewrite (kudo_more.GetKudos_reachable (kudo.NewService owner) s Hr) in *.
  cbn in Hrepo, Hst, Hbody.
  exists wd. repeat split; try assumption.
  unfold sent. rewrite Hsent. apply lookup_insert_eq.
Qed.

(** X15: whatever the route and the body, an authorized request changes
    no document that does not belong to the token's subject: the
    documents of every other owner are the same after it as before. *)
Theorem authorized_request_stays_within_owner (r : http.Request)
    (s : storage.MongoRepository) (jwt : jwtverifier.Jwt) (owner : string) :
  http.validateAccessToken (authorization r) = Returned (inl jwt) ->
  jwtverifier.Claims jwt !! "sub" = Some (IString owner) ->
  exists wd,
    http.serve r s = Returned wd
    /\ List.filter (fun d => negb (owned_by owner d)) (stored (http.repo wd))
       = List.filter (fun d => negb (owned_by owner d)) (stored s)
    /\ forall other, other <> owner ->
         records_of other (stored (http.repo wd)) = records_of other (stored s).
Proof.
  intros Hv Hsub.
  destruct (serve_authorized_call r s jwt owner Hv Hsub) as (wd & HS & Hrepo & _).
  exists wd. split; [exact HS|]. rewrite Hrepo. split.
  - apply kudo_facts.run_call_other. intros d ->. reflexivity.
  - intros other Hne. unfold records_of. apply kudo_facts.run_call_other.
    intros d Hd. apply (kudo_facts.owned_by_disjoint owner other); [congruence | exact Hd].
Qed.

(** X16: while the database fails, every authorized request, on whatever
    route, is answered 500, as JSON and without a body, and no document
    changes. *)
Theorem store_failure_is_answered_500 (r : http.Request) (s : storage.MongoRepository)
    (jwt : jwtverifier.Jwt) (owner : string) (e : error) :
  http.validateAccessToken (authorization r) = Returned (inl jwt) ->
  jwtverifier.Claims jwt !! "sub" = Some (IString owner) ->
  mgo.fault (storage.session s) = Some e ->
  exists wd,
    http.serve r s = Returned wd
    /\ http.status (http.w wd) = http.StatusInternalServerError
    /\ sent "Content-Type" wd = Some ["application/json"]
    /\ http.body (http.w wd) = []
    /\ stored (http.repo wd) = stored s.
Proof.
  intros Hv Hsub Hf.
  destruct (serve_authorized_call r s jwt owner Hv Hsub)
    as (wd & HS & Hrepo & Hst & Hbody & Hsent & _).
  destruct (kudo_more.run_call_faulty (kudo.NewService owner) (call_of r) s e Hf)
    as (Herr & Hdocs & _).
  exists wd. split; [exact HS|]. split; [|split; [|split]].
  - rewrite Hst. unfold status_for. now rewrite Herr.
  - unfold sent. rewrite Hsent. apply lookup_insert_eq.
  - rewrite Hbody.
    destruct (fst (run_call (kudo.NewService owner) (call_of r) s)) as [[ks|e']|[k|e']];
      try discriminate; reflexivity.
  - now rewrite Hrepo.
Qed.


(** X18: a request on one of the four registered routes that is answered
    leaves exactly one access-log line, the method and the URI, and its
    status is 403, 500 or the success status of its route: 201 for
    POST /kudos, 200 for the other three.  A 403 leaves the store as it
    was. *)
Theorem answered_request_is_logged_once (r : http.Request) (s : storage.MongoRepository)
    (wd : http.World storage.MongoRepository) :
  http.serve r s = Returned wd ->
  http.stdlog wd = [log_line r]
  /\ http.wroteHeader (http.w wd) = true
  /\ (http.status (http.w wd) = http.StatusForbidden
      \/ http.status (http.w wd) = http.StatusInternalServerError
      \/ http.status (http.w wd)
         = match http.route r with
           | http.POST_kudos => http.StatusCreated
           | _ => http.StatusOK
           end)
  /\ (http.status (http.w wd) = http.StatusForbidden -> http.repo wd = s).
Proof.
  intros HS.
  destruct (http.validateAccessToken (authorization r)) as [[jwt|err]|msg] eqn:Hv.
  - destruct (jwtverifier.Claims jwt !! "sub") as [[sub|]|] eqn:Hsub.
    + destruct (serve_authorized_call r s jwt sub Hv Hsub)
        as (wd' & HS' & _ & Hst & _ & _ & Hlog).
      destruct (authorized_response_is_json r s jwt sub Hv Hsub) as (wd2 & HS2 & _ & Hst2).
      rewrite HS in HS', HS2. inversion HS'; subst wd'. inversion HS2; subst wd2.
      split; [exact Hlog|].
      revert HS. rewrite (serve_passed_gate r s jwt sub Hv Hsub). intros HR.
      destruct (cors_headers_fresh r) as (Hw & _ & _).
      match type of HR with http.router ?r' ?wd0 = _ =>
        destruct (router_commits r' wd0 sub) as (wd3 & HR3 & Hwrote & _) end;
        [apply lookup_insert_eq | exact Hw |].
      rewrite HR in HR3. inversion HR3; subst wd3.
      split; [exact Hwrote|].
      assert (Hcases : http.status (http.w wd) = http.StatusInternalServerError
                       \/ http.status (http.w wd)
                          = match http.route r with
                            | http.POST_kudos => http.StatusCreated
                            | _ => http.StatusOK
                            end).
      { rewrite Hst. unfold status_for.
        destruct (reply_error _); [now left|].
        right. destruct (http.route r); reflexivity. }
      split; [tauto|].
      intros H403. destruct Hcases as [H5|Hok]; rewrite H403 in *;
        [discriminate|]. destruct (http.route r); discriminate.
    + revert HS. unfold http.serve. rewrite Router_at_gate.
      unfold http.OktaAuth. fold (authorization r). rewrite Hv, Hsub. discriminate.
    + revert HS. unfold http.serve. rewrite Router_at_gate.
      unfold http.OktaAuth. fold (authorization r). rewrite Hv, Hsub. discriminate.
  - revert HS. unfold http.serve. rewrite Router_at_gate.
    unfold http.OktaAuth. fold (authorization r). rewrite Hv.
    destruct (cors_headers_fresh r) as (Hw & _ & _).
    intros HS. inversion HS; subst wd. clear HS.
    unfold at_gate, http.on_w, http.Write, http.WriteHeader.
    cbn [http.w http.repo http.stdlog http.wroteHeader http.status http.sentHeader
         http.body http.header].
    rewrite Hw.
    cbn [http.w http.repo http.stdlog http.wroteHeader http.status http.sentHeader
         http.body http.header].
    repeat split; auto.
  - rewrite (serve_gate_panics r s msg Hv) in HS. discriminate.
Qed.

End surface_more.

Lemma gate_verifies_second_field_witness :
  http.validateAccessToken ["Basic token-of-u1 and more"; "ignored"]
  = Returned (jwtverifier.VerifyIdToken "token-of-u1").
Proof.
  apply (gate_verifies_second_field "Basic" "token-of-u1" " and more" ["ignored"]);
    reflexivity.
Defined.

Lemma subject_must_be_a_string_witness :
  http.serve (H := {| jwtverifier.VerifyIdToken := fun _ =>
                        inl {| jwtverifier.Claims := <["sub" := IOther]> ∅ |} |})
    (scenario.request http.GET_kudos (scenario.bearer "any") EmptyString)
    scenario.store_two_users
  = Panicked "interface conversion: interface {} is not string".
Proof.
  apply (subject_must_be_a_string
           (H := {| jwtverifier.VerifyIdToken := fun _ =>
                      inl {| jwtverifier.Claims := <["sub" := IOther]> ∅ |} |})
           (scenario.request http.GET_kudos (scenario.bearer "any") EmptyString)
           scenario.store_two_users
           {| jwtverifier.Claims := <["sub" := IOther]> ∅ |}).
  - reflexivity.
  - intros sub. vm_compute. discriminate.
Defined.

Lemma answered_request_is_logged_once_witness :
  exists wd,
    http.serve (scenario.request http.GET_kudos (scenario.bearer "forged") EmptyString)
      scenario.store_two_users = Returned wd
    /\ http.stdlog wd = ["GET: /kudos"]
    /\ http.wroteHeader (http.w wd) = true.
Proof.
  destruct (http.serve (scenario.request http.GET_kudos (scenario.bearer "forged")
                          EmptyString) scenario.store_two_users) as [wd|msg] eqn:HS.
  - exists wd. split; [reflexivity|].
    destruct (answered_request_is_logged_once _ _ wd HS) as (Hlog & Hwrote & _).
    split; [exact Hlog | exact Hwrote].
  - vm_compute in HS. discriminate.
Defined.

Lemma list_request_returns_owner_records_witness :
  exists wd,
    http.serve (scenario.request http.GET_kudos (scenario.bearer "token-of-u1") EmptyString)
      scenario.store_two_users = Returned wd
    /\ http.status (http.w wd) = http.StatusOK
    /\ sent "Content-Type" wd = Some ["application/json"]
    /\ http.body (http.w wd)
       = [http.JSON_Kudos
            (List.map of_bson (records_of "u1" (stored scenario.store_two_users)))]
    /\ http.repo wd = scenario.store_two_users.
Proof.
  apply (list_request_returns_owner_records
           (scenario.request http.GET_kudos (scenario.bearer "token-of-u1") EmptyString)
           scenario.store_two_users
           {| jwtverifier.Claims := <["sub" := IString "u1"]> ∅ |} "u1");
    reflexivity.
Defined.

Lemma authorized_request_stays_within_owner_witness :
  exists wd,
    http.serve (scenario.request (http.DELETE_kudos "42") (scenario.bearer "token-of-u1")
                  EmptyString)
      scenario.store_two_users = Returned wd
    /\ List.filter (fun d => negb (owned_by "u1" d)) (stored (http.repo wd))
       = List.filter (fun d => negb (owned_by "u1" d)) (stored scenario.store_two_users).
Proof.
  destruct (authorized_request_stays_within_owner
              (scenario.request (http.DELETE_kudos "42") (scenario.bearer "token-of-u1")
                 EmptyString)
              scenario.store_two_users
              {| jwtverifier.Claims := <["sub" := IString "u1"]> ∅ |} "u1")
    as (wd & HS & Hkeep & _); [reflexivity | reflexivity |].
  exists wd. split; [exact HS | exact Hkeep].
Defined.

Lemma store_failure_is_answered_500_witness :
  exists wd,
    http.serve (scenario.request http.GET_kudos (scenario.bearer "token-of-u1") EmptyString)
      (history.with_fault (Some (ErrOther "no reachable servers")) scenario.store_two_users)
      = Returned wd
    /\ http.status (http.w wd) = http.StatusInternalServerError
    /\ sent "Content-Type" wd = Some ["application/json"]
    /\ http.body (http.w wd) = []
    /\ stored (http.repo wd) = stored
         (history.with_fault (Some (ErrOther "no reachable servers")) scenario.store_two_users).
Proof.
  apply (store_failure_is_answered_500
           (scenario.request http.GET_kudos (scenario.bearer "token-of-u1") EmptyString)
           (history.with_fault (Some (ErrOther "no reachable servers"))
              scenario.store_two_users)
           {| jwtverifier.Claims := <["sub" := IString "u1"]> ∅ |} "u1"
           (ErrOther "no reachable servers"));
    reflexivity.
Defined.


End http_more.

(* ===================================================================== *)
(** * The page: clicks on the heart of a repository *)

Module page_facts.
Import js page_spec.
Local Open Scope Z_scope.

Lemma strict_eq_refl (x : Id) : strict_eq x x = true.
Proof.
  destruct x as [n|s]; cbn [strict_eq];
    [apply Z.eqb_refl | apply String.eqb_refl].
Qed.

Lemma strict_ne_refl (x : Id) : strict_ne x x = false.
Proof. unfold strict_ne. now rewrite strict_eq_refl. Qed.

Lemma setKudos_same (st : Home.State) : Home.setKudos st (Home.kudos st) = st.
Proof. now destruct st. Qed.

Lemma setKudos_twice (st : Home.State) ks ks' :
  Home.setKudos (Home.setKudos st ks) ks' = Home.setKudos st ks'.
Proof. reflexivity. Qed.

Lemma filter_all {A} (p : A -> bool) (l : list A) :
  (forall x, In x l -> p x = true) -> List.filter p l = l.
Proof.
  induction l as [|a l IH]; intros Hall; [reflexivity|].
  cbn [List.filter]. rewrite (Hall a (or_introl eq_refl)).
  f_equal. apply IH. intros x Hx. apply Hall. now right.
Qed.

Lemma find_filter_negb {A} (p : A -> bool) (l : list A) :
  List.find p (List.filter (fun x => negb (p x)) l) = None.
Proof.
  induction l as [|a l IH]; [reflexivity|].
  cbn [List.filter]. destruct (p a) eqn:Hp; cbn [negb]; [exact IH|].
  cbn [List.find]. now rewrite Hp.
Qed.

Lemma filter_idem {A} (p : A -> bool) (l : list A) :
  List.filter p (List.filter p l) = List.filter p l.
Proof.
  apply filter_all. intros x Hx. now apply List.filter_In in Hx.
Qed.

Section page.
Context `{!Engine}.

Lemma loose_eq_refl (x : Id) : loose_eq x x = true.
Proof.
  destruct x as [n|s]; cbn [loose_eq];
    [apply Z.eqb_refl | apply String.eqb_refl].
Qed.

(** What [===] equates, [==] equates. *)
Lemma strict_eq_loose_eq (x y : Id) : strict_eq x y = true -> loose_eq x y = true.
Proof. destruct x, y; cbn [strict_eq loose_eq]; congruence. Qed.

(** Between two numbers [==] and [===] agree. *)
Lemma loose_eq_Num (x : Id) (n m : Z) :
  x = Num m -> loose_eq x (Num n) = strict_eq x (Num n).
Proof. intros ->. reflexivity. Qed.

Lemma isKudo_None_filter (st : Home.State) (repo : Repo) :
  Home.isKudo st repo = None ->
  List.filter (fun r => strict_ne (id r) (id repo)) (Home.kudos st) = Home.kudos st.
Proof.
  intros Hnone. apply filter_all. intros r Hr.
  pose proof (List.find_none _ _ Hnone r Hr) as Hloose. cbn beta in Hloose.
  unfold strict_ne. destruct (strict_eq (id r) (id repo)) eqn:Hs; [|reflexivity].
  apply strict_eq_loose_eq in Hs. congruence.
Qed.

(** X19: a repository the page does not hold as a bookmark: the first
    click sends createKudo and puts it first among the bookmarks, the
    second sends deleteKudo and brings back the state before the first. *)
Theorem page_bookmark_then_unbookmark (st : Home.State) (repo : Repo) :
  Home.isKudo st repo = None ->
  Home.onKudo st repo
  = (Home.createKudo repo, Home.setKudos st (repo :: Home.kudos st))
  /\ Home.onKudo (Home.setKudos st (repo :: Home.kudos st)) repo
     = (Home.deleteKudo repo, st).
Proof.
  intros Hnone. unfold Home.onKudo, Home.updateBackend, Home.updateState.
  rewrite Hnone. split; [reflexivity|].
  unfold Home.isKudo. cbn [Home.kudos Home.setKudos List.find].
  rewrite loose_eq_refl. cbn [List.filter]. rewrite strict_ne_refl.
  rewrite (isKudo_None_filter st repo Hnone).
  rewrite setKudos_twice, setKudos_same. reflexivity.
Qed.

Lemma onKudo_keeps_string_record (st : Home.State) (r repo : Repo) s n :
  In r (Home.kudos st) ->
  id r = Str s ->
  StringToNumber s = Some n ->
  id repo = Num n ->
  fst (Home.onKudo st repo) = Home.deleteKudo repo
  /\ In r (Home.kudos (snd (Home.onKudo st repo))).
Proof.
  intros Hin Hr Hs Hrepo.
  assert (Hfound : Home.isKudo st repo <> None).
  { intros Hnone. pose proof (List.find_none _ _ Hnone r Hin) as Hl.
    cbn beta in Hl. rewrite Hr, Hrepo in Hl. cbn [loose_eq] in Hl.
    rewrite Hs, Z.eqb_refl in Hl. discriminate. }
  unfold Home.onKudo, Home.updateBackend, Home.updateState.
  destruct (Home.isKudo st repo) as [found|]; [|contradiction].
  cbn [fst snd Home.setKudos Home.kudos]. split; [reflexivity|].
  apply List.filter_In. split; [exact Hin|].
  rewrite Hr, Hrepo. reflexivity.
Qed.

(** X20: a bookmark that came from the API (its id a string) and the
    same repository in a search result (its id a number) are taken for
    the same by [==], yet [!==] filters nothing: however often the heart
    is clicked, every click sends deleteKudo and the record stays among
    the bookmarks of the page. *)
Theorem api_record_survives_unbookmark (st : Home.State) (r repo : Repo)
    (s : string) (n : Z) (k : nat) :
  In r (Home.kudos st) ->
  id r = Str s ->
  StringToNumber s = Some n ->
  id repo = Num n ->
  fst (clicks k st repo) = List.repeat (Home.deleteKudo repo) k
  /\ In r (Home.kudos (snd (clicks k st repo)))
  /\ Home.isKudo (snd (clicks k st repo)) repo <> None.
Proof.
  intros Hin Hr Hs Hrepo. revert st Hin.
  induction k as [|k IH]; intros st Hin.
  - cbn [clicks fst snd List.repeat]. split; [reflexivity|]. split; [exact Hin|].
    intros Hnone. pose proof (List.find_none _ _ Hnone r Hin) as Hl.
    cbn beta in Hl. rewrite Hr, Hrepo in Hl. cbn [loose_eq] in Hl.
    rewrite Hs, Z.eqb_refl in Hl. discriminate.
  - destruct (onKudo_keeps_string_record st r repo s n Hin Hr Hs Hrepo)
      as [Hcall Hin'].
    cbn [clicks]. destruct (Home.onKudo st repo) as [call st'].
    cbn [fst snd] in Hcall, Hin'. subst call.
    specialize (IH st' Hin').
    destruct (clicks k st' repo) as [calls st''].
    cbn [fst snd] in IH |- *. destruct IH as (Hcalls & Hin'' & Hfound).
    cbn [List.repeat]. rewrite Hcalls. auto.
Qed.

(** X21: while every bookmark of the page has a number as its id, as
    search results have, a click on a bookmarked repository sends
    deleteKudo and leaves exactly the bookmarks with another id; the
    repository is no bookmark any more. *)
Theorem numbered_unbookmark_removes (st : Home.State) (repo : Repo) (n : Z) :
  numbered st ->
  id repo = Num n ->
  Home.isKudo st repo <> None ->
  fst (Home.onKudo st repo) = Home.deleteKudo repo
  /\ Home.isKudo (snd (Home.onKudo st repo)) repo = None
  /\ (forall r, In r (Home.kudos (snd (Home.onKudo st repo)))
                <-> In r (Home.kudos st) /\ id r <> Num n)
  /\ numbered (snd (Home.onKudo st repo)).
Proof.
  intros Hnum Hrepo Hfound.
  unfold Home.onKudo, Home.updateBackend, Home.updateState.
  destruct (Home.isKudo st repo) as [found|]; [clear Hfound|contradiction].
  cbn [fst snd]. split; [reflexivity|].
  assert (Hagree : List.filter (fun r => strict_ne (id r) (id repo)) (Home.kudos st)
                   = List.filter (fun r => negb (loose_eq (id r) (id repo)))
                       (Home.kudos st)).
  { apply List.filter_ext_in. intros r Hr.
    destruct (proj1 (List.Forall_forall _ _) Hnum r Hr) as [m Hm].
    rewrite Hrepo. unfold strict_ne. now rewrite (loose_eq_Num _ n m Hm). }
  split; [|split].
  - unfold Home.isKudo. cbn [Home.kudos Home.setKudos]. rewrite Hagree.
    apply (find_filter_negb (fun r => loose_eq (id r) (id repo))).
  - intros r. cbn [Home.kudos Home.setKudos]. rewrite List.filter_In.
    split; intros [Hr Hne]; (split; [exact Hr|]).
    + intros Hid. rewrite Hid, Hrepo, strict_ne_refl in Hne. discriminate.
    + destruct (proj1 (List.Forall_forall _ _) Hnum r Hr) as [m Hm].
      rewrite Hm, Hrepo. unfold strict_ne. cbn [strict_eq].
      apply negb_true_iff, Z.eqb_neq. intros ->. now apply Hne.
  - unfold numbered. cbn [Home.kudos Home.setKudos].
    apply List.Forall_forall. intros r Hr. apply List.filter_In in Hr.
    exact (proj1 (List.Forall_forall _ _) Hnum r (proj1 Hr)).
Qed.

End page.

Lemma local_onKudo_absent (st : Home.State) (repo : Repo) :
  List.find (fun r => strict_eq (id r) (id repo)) (Home.kudos st) = None ->
  Home_local.onKudo st repo = Home.setKudos st (repo :: Home.kudos st).
Proof. intros Hnone. unfold Home_local.onKudo. now rewrite Hnone. Qed.

Lemma local_onKudo_head (st : Home.State) (repo : Repo) (ks : list Repo) :
  Home_local.onKudo (Home.setKudos st (repo :: ks)) repo
  = Home.setKudos st (List.filter (fun r => strict_ne (id r) (id repo)) ks).
Proof.
  unfold Home_local.onKudo. cbn [Home.kudos Home.setKudos List.find List.filter].
  now rewrite strict_eq_refl, strict_ne_refl.
Qed.

(** X22: on the page that is not yet wired to the API, where both the
    search and the filter compare with the strict operators, a click
    always toggles: the repository is a bookmark after the click exactly
    when it was none before, and from the first click on the page
    alternates between two states. *)
Theorem local_click_toggles (st : Home.State) (repo : Repo) :
  (is_Some (List.find (fun r => strict_eq (id r) (id repo))
              (Home.kudos (Home_local.onKudo st repo)))
   <-> List.find (fun r => strict_eq (id r) (id repo)) (Home.kudos st) = None)
  /\ Home_local.onKudo (Home_local.onKudo (Home_local.onKudo st repo) repo) repo
     = Home_local.onKudo st repo.
Proof.
  destruct (List.find (fun r => strict_eq (id r) (id repo)) (Home.kudos st))
    as [found|] eqn:Hfind.
  - assert (Hfirst : Home_local.onKudo st repo
                     = Home.setKudos st
                         (List.filter (fun r => strict_ne (id r) (id repo))
                            (Home.kudos st))).
    { unfold Home_local.onKudo. now rewrite Hfind. }
    assert (Hgone : List.find (fun r => strict_eq (id r) (id repo))
                      (List.filter (fun r => strict_ne (id r) (id repo))
                         (Home.kudos st)) = None).
    { apply (find_filter_negb (fun r => strict_eq (id r) (id repo))). }
    rewrite Hfirst. cbn [Home.kudos Home.setKudos]. rewrite Hgone. split.
    + split; [intros [x Hx]; discriminate | discriminate].
    + rewrite (local_onKudo_absent (Home.setKudos st _) repo Hgone).
      cbn [Home.kudos Home.setKudos]. rewrite setKudos_twice.
      rewrite local_onKudo_head. now rewrite filter_idem.
  - rewrite (local_onKudo_absent st repo Hfind). split.
    + cbn [Home.kudos Home.setKudos List.find]. rewrite strict_eq_refl.
      split; [reflexivity | eauto].
    + rewrite local_onKudo_head.
      rewrite (filter_all (fun r => strict_ne (id r) (id repo)) (Home.kudos st)).
      * rewrite setKudos_same. apply (local_onKudo_absent st repo Hfind).
      * intros r Hr. pose proof (List.find_none _ _ Hfind r Hr) as Hs.
        cbn beta in Hs. unfold strict_ne. now rewrite Hs.
Qed.

Lemma page_bookmark_then_unbookmark_witness :
  Home.onKudo (H := decimal_engine) Home.state (fromSearch 42 ∅)
  = (Home.createKudo (fromSearch 42 ∅),
     Home.setKudos Home.state [fromSearch 42 ∅])
  /\ Home.onKudo (H := decimal_engine)
       (Home.setKudos Home.state [fromSearch 42 ∅]) (fromSearch 42 ∅)
     = (Home.deleteKudo (fromSearch 42 ∅), Home.state).
Proof.
  apply (page_bookmark_then_unbookmark (H := decimal_engine)
           Home.state (fromSearch 42 ∅)).
  reflexivity.
Defined.

Lemma api_record_survives_unbookmark_witness :
  fst (clicks (H := decimal_engine) 3
         (Home.componentDidMount Home.state
            [fromKudo (kudo.githubRepoToKudo scenario.u1 scenario.foo_bar)])
         (fromSearch 42 ∅))
  = [Home.deleteKudo (fromSearch 42 ∅); Home.deleteKudo (fromSearch 42 ∅);
     Home.deleteKudo (fromSearch 42 ∅)]
  /\ In (fromKudo (kudo.githubRepoToKudo scenario.u1 scenario.foo_bar))
       (Home.kudos
          (snd (clicks (H := decimal_engine) 3
                  (Home.componentDidMount Home.state
                     [fromKudo (kudo.githubRepoToKudo scenario.u1 scenario.foo_bar)])
                  (fromSearch 42 ∅)))).
Proof.
  destruct (api_record_survives_unbookmark (H := decimal_engine)
              (Home.componentDidMount Home.state
                 [fromKudo (kudo.githubRepoToKudo scenario.u1 scenario.foo_bar)])
              (fromKudo (kudo.githubRepoToKudo scenario.u1 scenario.foo_bar))
              (fromSearch 42 ∅) "42" 42 3) as (Hcalls & Hin & _).
  - left. reflexivity.
  - reflexivity.
  - reflexivity.
  - reflexivity.
  - split; [exact Hcalls | exact Hin].
Defined.

Lemma numbered_unbookmark_removes_witness :
  Home.isKudo (H := decimal_engine)
    (snd (Home.onKudo (H := decimal_engine)
            (Home.setKudos Home.state [fromSearch 42 ∅; fromSearch 7 ∅])
            (fromSearch 42 ∅)))
    (fromSearch 42 ∅) = None.
Proof.
  destruct (numbered_unbookmark_removes (H := decimal_engine)
              (Home.setKudos Home.state [fromSearch 42 ∅; fromSearch 7 ∅])
              (fromSearch 42 ∅) 42) as (_ & Hgone & _).
  - repeat constructor; eexists; reflexivity.
  - reflexivity.
  - discriminate.
  - exact Hgone.
Defined.

End page_facts.
